(** * dist-keras: the [distkeras.distributed] module

    A shallow embedding of [distkeras/distributed.py] (row helpers, the
    Keras model codec, the EASGD coordinator service, the EASGD worker and
    the trainers), followed by the properties established about it.

    Conventions of the embedding.
    - Python [int]s are [Z]; [len] yields a [nat] that is injected into [Z]
      before it is compared with an [int].
    - Python objects mutated in place ([self], a Keras model, a [dict]) are
      threaded explicitly: a method returns the updated object.
    - Exceptions are the [Raise] outcome of a small error type.
    - [Lock] and [Process], which the module uses without importing them,
      are taken to be the lock and the process of the standard library.
    - Keras, numpy, PySpark and the HTTP transport are libraries, not code of
      this module; the operations the module calls are modelled next to
      their callers and the facts assumed about Keras are collected in the
      class [KerasLaws]. *)

From Stdlib Require Import ZArith List String Ascii Bool Lia.
From stdpp Require Import base decidable option list gmap strings pretty sorting fin_maps.

Set Warnings "-clear-no-such-hyp".

(** ** Exceptions *)

Inductive exn := ValueError | TypeError | KeyError | URLError | NameError.

Inductive result (A : Type) :=
| Ok (a : A)
| Raise (e : exn).
Arguments Ok {A} a.
Arguments Raise {A} e.

Definition rbind {A B} (r : result A) (k : A → result B) : result B :=
  match r with
  | Ok a => k a
  | Raise e => Raise e
  end.

Notation "x ←r e1 ; e2" := (rbind e1 (λ x, e2))
  (at level 100, e1 at next level, e2 at level 200, right associativity).

Fixpoint rmapM {A B} (f : A → result B) (l : list A) : result (list B) :=
  match l with
  | [] => Ok []
  | a :: l' => b ←r f a; bs ←r rmapM f l'; Ok (b :: bs)
  end.

(** ** Python values held in a dataframe row *)

Module PySpark.

(** Leaf objects.  [AObj] stands for any other object that [asDict] passes
    through untouched (a float, a [DenseVector], ...). *)
Inductive Atom :=
| ANone
| ABool (b : bool)
| AInt (z : Z)
| AStr (s : string)
| AObj (id : positive).

(** A [Row] is a tuple of values with the list [__fields__] of their names,
    kept here as the list of (name, value) pairs in tuple order; a row
    without field names, on which [asDict] raises, is not among them.  A
    [dict] is the list of its items, keys pairwise distinct. *)
#[warnings="-register-all"] Inductive Value :=
| VAtom (a : Atom)
| VRow (r : list (string * Value))
| VList (l : list Value)
| VDict (d : list (Atom * Value)).

Definition Row := list (string * Value).

Section Dict.
Context {K V : Type} `{EqDecision K}.

(** [d[k]] as [d.get(k)]. *)
Fixpoint dict_get (d : list (K * V)) (k : K) : option V :=
  match d with
  | [] => None
  | (k', v) :: d' => if decide (k' = k) then Some v else dict_get d' k
  end.

(** [d[k] = v]: overwrite the item of key [k], or add one. *)
Fixpoint dict_set (d : list (K * V)) (k : K) (v : V) : list (K * V) :=
  match d with
  | [] => [(k, v)]
  | (k', v') :: d' =>
      if decide (k' = k) then (k, v) :: d' else (k', v') :: dict_set d' k v
  end.

(** [dict(pairs)]: the pairs are stored from left to right, so that of
    two pairs with one key the later one stays. *)
Definition dict (pairs : list (K * V)) : list (K * V) :=
  fold_left (λ d kv, dict_set d kv.1 kv.2) pairs [].
End Dict.

(** [Row.asDict(recursive=True)].  With [recursive] set, every nested [Row]
    is itself turned into a [dict], through lists and dict values. *)
Fixpoint conv (obj : Value) : Value :=
  match obj with
  | VRow r =>
      VDict (map (λ kv, (AStr kv.1, kv.2))
               (dict (map (λ kv, match kv with (k, v) => (k, conv v) end) r)))
  | VList l => VList (map conv l)
  | VDict d => VDict (map (λ kv, match kv with (k, v) => (k, conv v) end) d)
  | VAtom a => VAtom a
  end.

(** An item with its value converted, and the values in which no [Row]
    occurs, which [conv] leaves as they are. *)
Definition conv_item {K} (kv : K * Value) : K * Value :=
  match kv with (k, v) => (k, conv v) end.

Fixpoint row_free (obj : Value) : bool :=
  match obj with
  | VAtom _ => true
  | VRow _ => false
  | VList l => forallb row_free l
  | VDict d => forallb (λ kv, match kv with (_, v) => row_free v end) d
  end.

Definition asDict (self : Row) : list (string * Value) :=
  dict (map (λ kv, match kv with (k, v) => (k, conv v) end) self).

(** [Row] built from keyword arguments: the fields are the keyword names
    in sorted order. *)
Definition field_le (x y : string * Value) : Prop := String.leb x.1 y.1 = true.

Global Instance field_le_dec x y : Decision (field_le x y).
Proof. unfold field_le. apply _. Defined.

(** The body of [Row.__new__] for keyword arguments:
    [names = sorted(kwargs.keys())] and the tuple of their values. *)
Definition Row_new (kwargs : list (string * Value)) : Row :=
  merge_sort field_le kwargs.

(** The call [Row( **kwargs )] with at least one keyword.  The method is
    declared [__new__(self, *args, **kwargs)], and the class is bound to
    its first parameter: a keyword of the name [self] is a second value for
    that parameter, and the call raises [TypeError] before the body runs. *)
Definition Row_kwargs (kwargs : list (string * Value)) : result Row :=
  if decide ("self"%string ∈ kwargs.*1) then Raise TypeError
  else Ok (Row_new kwargs).

(** [row[name]]: the value at the first index of [name] in [__fields__];
    [ValueError] when there is none. *)
Definition Row_getitem (self : Row) (item : string) : result Value :=
  match dict_get self item with
  | Some v => Ok v
  | None => Raise ValueError
  end.

End PySpark.

(** ** Utility functions *)

Import PySpark.

Definition new_dataframe_row (old_row : Row) (column_name : string)
    (column_value : Value) : result Row :=
  let d := asDict old_row in
  let d := dict_set d column_name column_value in
  (* [dict(d)] is a copy of [d] *)
  new_row ←r Row_kwargs d;
  Ok new_row.

(** ** numpy and Keras, as far as the module calls them *)

Module numpy.
(** Scalars are left abstract: the module only subtracts them. *)
Class Scalar (F : Type) := fsub : F → F → F.

Section Arrays.
Context {F : Type} `{Scalar F}.

(** A weight tensor is kept as the flat sequence of its entries, and its
    shape as the number of entries. *)
Definition ndarray := list F.
Definition shapes (ws : list ndarray) : list nat := map length ws.

(** [a - b] on two arrays of one shape is the elementwise difference.
    For two different shapes numpy broadcasts or raises; the callers in
    this module never get there, and the case is reported as an error. *)
Definition sub (a b : ndarray) : result ndarray :=
  if decide (length a = length b) then Ok (zip_with fsub a b)
  else Raise ValueError.

(** [np.asarray(xs) - np.asarray(ys)] for two lists of weight tensors;
    the two conversions to arrays are taken to succeed. *)
Fixpoint asarray_sub (xs ys : list ndarray) : result (list ndarray) :=
  match xs, ys with
  | [], [] => Ok []
  | x :: xs', y :: ys' =>
      d ←r sub x y; ds ←r asarray_sub xs' ys'; Ok (d :: ds)
  | _, _ => Raise ValueError
  end.
End Arrays.
Arguments ndarray F : clear implicits.
End numpy.

Import numpy.

(** The Keras model API.  [compile] and [fit] change the model in place and
    are given here as functions to the changed model; [model_from_json] and
    [set_weights] can raise. *)
Class Keras (F Model : Type) := {
  to_json : Model → string;
  model_from_json : string → result Model;
  get_weights : Model → list (ndarray F);
  set_weights : Model → list (ndarray F) → result Model;
  compile : Model → Model;
  fit : Model → list Value → list Value → Model;
}.

(** What is assumed of Keras: a model rebuilt from its own JSON has weight
    tensors of the same shapes; weights of the right shapes can be set and
    are then the model's weights; compiling keeps the weights; fitting keeps
    their shapes. *)
Class KerasLaws (F Model : Type) `{Keras F Model} : Prop := {
  model_from_json_to_json (m : Model) :
    ∃ m0, model_from_json (to_json m) = Ok m0 ∧
          shapes (get_weights m0) = shapes (get_weights m);
  set_weights_shapes (m : Model) (ws : list (ndarray F)) :
    shapes ws = shapes (get_weights m) → ∃ m', set_weights m ws = Ok m';
  set_weights_Ok (m m' : Model) (ws : list (ndarray F)) :
    set_weights m ws = Ok m' → get_weights m' = ws;
  compile_get_weights (m : Model) : get_weights (compile m) = get_weights m;
  fit_shapes (m : Model) (X Y : list Value) :
    shapes (get_weights (fit m X Y)) = shapes (get_weights m);
}.

(** The dict built by [serialize_keras_model]: keys ['model'] and
    ['weights']. *)
Record ModelDict (F : Type) := {
  d_model : string;
  d_weights : list (ndarray F);
}.
Arguments d_model {F} _.
Arguments d_weights {F} _.

Section ModelCodec.
Context {F Model : Type} `{Keras F Model}.

Definition serialize_keras_model (model : Model) : ModelDict F :=
  {| d_model := to_json model; d_weights := get_weights model |}.

Definition deserialize_keras_model (d : ModelDict F) : result Model :=
  let architecture := d_model d in
  let weights := d_weights d in
  model ←r model_from_json architecture;
  set_weights model weights.
End ModelCodec.

(** ** The names of the module

    What the module binds at its top level: the names its imports bring
    in and the functions and classes it defines.  A name that is neither
    among them nor a builtin raises [NameError] where it is evaluated;
    [global_name] is for names that are not builtins. *)
Definition module_names : list string :=
  ["Flask"; "request"; "chain"; "tee"; "model_from_config"; "model_from_json";
   "RMSprop"; "np_utils"; "DenseVector"; "Row"; "pickle"; "np"; "time"; "urllib2";
   "to_vector"; "new_dataframe_row"; "serialize_keras_model";
   "deserialize_keras_model"; "rest_post"; "rest_get"; "Transformer";
   "LabelVectorTransformer"; "LabelIndexTransformer"; "Predictor"; "ModelPredictor";
   "Trainer"; "EnsembleTrainer"; "EnsembleTrainerWorker"; "EASGD";
   "EASGDWorker"]%string.

Definition global_name (name : string) : result unit :=
  if decide (name ∈ module_names) then Ok () else Raise NameError.

(** ** The EASGD trainer: its state and the routes of its service *)

Module EASGD.

(** The body of a POST to [/update]. *)
Record UpdateData (F : Type) := {
  worker_id : Z;
  gradient : list (ndarray F);
}.
Arguments worker_id {F} _.
Arguments gradient {F} _.

(** The attributes of an [EASGD] object.  [stdout] is what the service has
    printed so far.  The [service] process handle and the [mutex] are left
    to the thread-level model of the service below. *)
Record t (F Model : Type) := {
  master_model : ModelDict F;
  features_column : string;
  label_column : string;
  num_workers : Z;
  model : Model;
  gradients : gmap Z (list (ndarray F));
  ready : bool;
  iteration : Z;
  stdout : list string;
}.
Arguments master_model {F Model} _.
Arguments features_column {F Model} _.
Arguments label_column {F Model} _.
Arguments num_workers {F Model} _.
Arguments model {F Model} _.
Arguments gradients {F Model} _.
Arguments ready {F Model} _.
Arguments iteration {F Model} _.
Arguments stdout {F Model} _.

Section Trainer.
Context {F Model : Type} `{Keras F Model}.
Local Abbreviation t := (t F Model).

Definition with_ready (self : t) (b : bool) : t :=
  {| master_model := master_model self; features_column := features_column self;
     label_column := label_column self; num_workers := num_workers self;
     model := model self; gradients := gradients self; ready := b;
     iteration := iteration self; stdout := stdout self |}.

Definition with_gradients (self : t) (g : gmap Z (list (ndarray F))) : t :=
  {| master_model := master_model self; features_column := features_column self;
     label_column := label_column self; num_workers := num_workers self;
     model := model self; gradients := g; ready := ready self;
     iteration := iteration self; stdout := stdout self |}.

Definition with_iteration (self : t) (i : Z) : t :=
  {| master_model := master_model self; features_column := features_column self;
     label_column := label_column self; num_workers := num_workers self;
     model := model self; gradients := gradients self; ready := ready self;
     iteration := i; stdout := stdout self |}.

Definition print (self : t) (line : string) : t :=
  {| master_model := master_model self; features_column := features_column self;
     label_column := label_column self; num_workers := num_workers self;
     model := model self; gradients := gradients self; ready := ready self;
     iteration := iteration self; stdout := stdout self ++ [line] |}.

(** [__init__]: the master model is serialized, the arguments are stored,
    [Lock()] is evaluated for [self.mutex], and [reset] fills in the
    training attributes.  The statements about the service below are about
    a trainer object in any state, however it came to be. *)
Definition init (keras_model : Model) (features_col label_col : string)
    (num_workers : Z) : result t :=
  let master_model := serialize_keras_model keras_model in
  (* Initialize attribute which do not change throughout the training process. *)
  _ ←r global_name "Lock";
  (* Initialize default parameters. *)
  model ←r deserialize_keras_model master_model;
  Ok {| master_model := master_model; features_column := features_col;
        label_column := label_col; num_workers := num_workers;
        model := model; gradients := ∅; ready := false; iteration := 0;
        stdout := [] |}.

Definition set_ready (self : t) (state : bool) : t := with_ready self state.

Definition get_ready (self : t) : bool :=
  let localReady := ready self in
  localReady.

Definition nl : string := String "010"%char EmptyString.

Definition process_gradients (self : t) : t :=
  print self (nl +:+ nl +:+ nl +:+ "--- Processing Gradients in iteration "
              +:+ pretty (iteration self) +:+ "---" +:+ nl +:+ nl +:+ nl).
End Trainer.

(** The three routes of [easgd_service], each run from its first to its
    last line without another request in between. *)
Module easgd_service.
Section Routes.
Context {F Model : Type} `{Keras F Model}.
Local Abbreviation t := (t F Model).

Definition center_variable (self : t) : list (ndarray F) :=
  let center_variable := get_weights (model self) in
  center_variable.

Definition update (self : t) (data : UpdateData F) : t * string :=
  let gradient := gradient data in
  let worker_id := worker_id data in
  (* Gradient update, declare next iteration. *)
  let self := set_ready self false in
  (* Store the gradient of the worker. *)
  let self := with_gradients self (<[worker_id := gradient]> (gradients self)) in
  (* Check if the gradients of all workers are available. *)
  if decide (Z.of_nat (size (gradients self)) = num_workers self) then
    let self := process_gradients self in
    let self := with_gradients self ∅ in
    let self := set_ready self true in
    let self := with_iteration self (iteration self + 1) in
    (self, "OK"%string)
  else (self, "OK"%string).

Definition ready (self : t) : bool :=
  let ready := get_ready self in
  ready.
End Routes.
End easgd_service.

(** Requests to the service and its answers. *)
Inductive Request (F : Type) :=
| GetCenterVariable
| SubmitGradient (data : UpdateData F)
| IsReady.
Arguments GetCenterVariable {F}.
Arguments SubmitGradient {F} data.
Arguments IsReady {F}.

Inductive Response (F : Type) :=
| CenterVariable (weights : list (ndarray F))
| Ack (token : string)
| Ready (flag : bool).
Arguments CenterVariable {F} weights.
Arguments Ack {F} token.
Arguments Ready {F} flag.

Section Serve.
Context {F Model : Type} `{Keras F Model}.
Local Abbreviation t := (t F Model).

Definition serve (self : t) (req : Request F) : t * Response F :=
  match req with
  | GetCenterVariable => (self, CenterVariable (easgd_service.center_variable self))
  | SubmitGradient data =>
      let r := easgd_service.update self data in (r.1, Ack r.2)
  | IsReady => (self, Ready (easgd_service.ready self))
  end.

(** The service answering a sequence of requests one after the other,
    each served to its end before the next begins.  Requests whose threads
    overlap are the matter of [ThreadedService] below. *)
Fixpoint run (self : t) (reqs : list (Request F)) : t * list (Response F) :=
  match reqs with
  | [] => (self, [])
  | req :: reqs' =>
      let r := serve self req in
      let rs := run r.1 reqs' in
      (rs.1, r.2 :: rs.2)
  end.
End Serve.

(** Ways of looking at the service that the statements below use. *)
Section Observations.
Context {F Model : Type} `{Keras F Model}.
Local Abbreviation t := (t F Model).
Implicit Types (self : t) (data : UpdateData F) (subs : list (UpdateData F))
  (reqs : list (Request F)) (pending : gmap Z (list (ndarray F))).

(** The object at the test of line 329: readiness withdrawn, the
    gradient stored. *)
Definition at_check self data : t :=
  with_gradients (set_ready self false)
    (<[worker_id data := gradient data]> (gradients self)).

Definition completes self data : Prop :=
  Z.of_nat (size (gradients (at_check self data))) = num_workers self.

#[global] Instance completes_dec self data : Decision (completes self data).
Proof. unfold completes. apply _. Defined.

(** The pending maps that [process_gradients] is called on while a
    sequence of submissions is served. *)
Fixpoint aggregated self subs : list (gmap Z (list (ndarray F))) :=
  match subs with
  | [] => []
  | data :: subs' =>
      (if decide (completes self data) then [gradients (at_check self data)] else [])
      ++ aggregated (easgd_service.update self data).1 subs'
  end.

Definition submit_all self subs : t :=
  fold_left (λ s data, (easgd_service.update s data).1) subs self.

Definition store pending subs : gmap Z (list (ndarray F)) :=
  fold_left (λ m data, <[worker_id data := gradient data]> m) subs pending.

Definition submissions reqs : list (UpdateData F) :=
  omap (λ req, match req with SubmitGradient data => Some data | _ => None end) reqs.
End Observations.
End EASGD.

(** ** The service, request by request and line by line

    Flask serves each request in a thread of its own ([threaded=True]), so
    the lines of two routes can alternate.  Here a route is the list of its
    attribute accesses and lock operations, in the order of the source
    lines; a machine runs the threads under a given schedule and records,
    for every access to an attribute of the trainer that a request can
    change, whether the running thread held [self.mutex]. *)

Module ThreadedService.
Import EASGD.

Inductive Field := FModel | FGradients | FReady | FIteration.
Inductive Kind := Read | Write.

#[warnings="-register-all"] Inductive Instr (F : Type) :=
| Acquire                               (* entering [with self.mutex:] *)
| Release                               (* leaving it *)
| StoreReady (state : bool)             (* [self.ready = state] *)
| LoadReady                             (* [localReady = self.ready] *)
| LoadWeights                           (* [self.model.get_weights()] *)
| StoreGradient (data : UpdateData F)   (* [self.gradients[worker_id] = gradient] *)
| IfComplete (body : list (Instr F))    (* [if len(self.gradients) == self.num_workers:] *)
| ProcessGradients                      (* [self.process_gradients()] *)
| ClearGradients                        (* [self.gradients = {}] *)
| IncrIteration                         (* [self.iteration += 1] *)
| ReturnOK.                             (* [return 'OK'] *)
Arguments Acquire {F}.
Arguments Release {F}.
Arguments StoreReady {F} state.
Arguments LoadReady {F}.
Arguments LoadWeights {F}.
Arguments StoreGradient {F} data.
Arguments IfComplete {F} body.
Arguments ProcessGradients {F}.
Arguments ClearGradients {F}.
Arguments IncrIteration {F}.
Arguments ReturnOK {F}.

Record Access := {
  thread : nat;
  field : Field;
  kind : Kind;
  locked : bool;
}.

Record Thread (F : Type) := {
  code : list (Instr F);
  reply : option (Response F);
}.
Arguments code {F} _.
Arguments reply {F} _.

Record Machine (F Model : Type) := {
  self : EASGD.t F Model;
  mutex : option nat;
  threads : list (Thread F);
  accesses : list Access;
}.
Arguments self {F Model} _.
Arguments mutex {F Model} _.
Arguments threads {F Model} _.
Arguments accesses {F Model} _.

Section Code.
Context {F : Type}.

Definition set_ready (state : bool) : list (Instr F) :=
  [Acquire; StoreReady state; Release].

Definition get_ready : list (Instr F) :=
  [Acquire; LoadReady; Release].

Definition center_variable : list (Instr F) :=
  [Acquire; LoadWeights; Release].

Definition update (data : UpdateData F) : list (Instr F) :=
  set_ready false ++
  [StoreGradient data;
   IfComplete ([ProcessGradients; ClearGradients] ++ set_ready true ++ [IncrIteration]);
   ReturnOK].

Definition ready : list (Instr F) := get_ready.

Definition route (req : Request F) : list (Instr F) :=
  match req with
  | GetCenterVariable => center_variable
  | SubmitGradient data => update data
  | IsReady => ready
  end.
End Code.

Section Machine.
Context {F Model : Type} `{Keras F Model}.
Local Abbreviation Machine := (Machine F Model).

Definition holds (m : Machine) (tid : nat) : bool :=
  bool_decide (mutex m = Some tid).

Definition touch (m : Machine) (tid : nat) (f : Field) (k : Kind) : list Access :=
  accesses m ++ [{| thread := tid; field := f; kind := k; locked := holds m tid |}].

(** One instruction of thread [tid], the rest of whose code is [rest].
    A thread that asks for a mutex that is taken does not move. *)
Definition exec (m : Machine) (tid : nat) (i : Instr F) (rest : list (Instr F))
    (th : Thread F) : Machine :=
  let continue (s : EASGD.t F Model) (mx : option nat) (c : list (Instr F))
               (r : option (Response F)) (acc : list Access) : Machine :=
    {| self := s; mutex := mx;
       threads := <[tid := {| code := c; reply := r |}]> (threads m);
       accesses := acc |} in
  match i with
  | Acquire =>
      match mutex m with
      | None => continue (self m) (Some tid) rest (reply th) (accesses m)
      | Some _ => m
      end
  | Release => continue (self m) None rest (reply th) (accesses m)
  | StoreReady state =>
      continue (with_ready (self m) state) (mutex m) rest (reply th)
        (touch m tid FReady Write)
  | LoadReady =>
      continue (self m) (mutex m) rest (Some (Ready (EASGD.ready (self m))))
        (touch m tid FReady Read)
  | LoadWeights =>
      continue (self m) (mutex m) rest
        (Some (CenterVariable (get_weights (model (self m)))))
        (touch m tid FModel Read)
  | StoreGradient data =>
      continue (with_gradients (self m)
                  (<[worker_id data := gradient data]> (gradients (self m))))
        (mutex m) rest (reply th) (touch m tid FGradients Write)
  | IfComplete body =>
      continue (self m) (mutex m)
        (if decide (Z.of_nat (size (gradients (self m))) = num_workers (self m))
         then body ++ rest else rest)
        (reply th) (touch m tid FGradients Read)
  | ProcessGradients =>
      continue (process_gradients (self m)) (mutex m) rest (reply th)
        (touch m tid FIteration Read)
  | ClearGradients =>
      continue (with_gradients (self m) ∅) (mutex m) rest (reply th)
        (touch m tid FGradients Write)
  | IncrIteration =>
      continue (with_iteration (self m) (iteration (self m) + 1)) (mutex m) rest
        (reply th)
        (touch m tid FIteration Read ++
         [{| thread := tid; field := FIteration; kind := Write; locked := holds m tid |}])
  | ReturnOK =>
      continue (self m) (mutex m) rest (Some (Ack "OK")) (accesses m)
  end.

Definition step (m : Machine) (tid : nat) : Machine :=
  match threads m !! tid with
  | Some th =>
      match code th with
      | i :: rest => exec m tid i rest th
      | [] => m
      end
  | None => m
  end.

(** The machine under a schedule: the thread ids in the order in which
    they take a step. *)
Definition run_schedule (m : Machine) (schedule : list nat) : Machine :=
  fold_left step schedule m.

(** One thread per request, none started yet. *)
Definition spawn (s : EASGD.t F Model) (reqs : list (Request F)) : Machine :=
  {| self := s; mutex := None;
     threads := (λ req, {| code := route req; reply := None |}) <$> reqs;
     accesses := [] |}.

Definition unlocked_accesses (m : Machine) : list Access :=
  filter (λ a, locked a = false) (accesses m).

(** A request that has the service to itself, run to its end. *)
Definition alone (s : EASGD.t F Model) (req : Request F) : Machine :=
  run_schedule (spawn s [req]) (replicate 12 0).
End Machine.

(** Two workers, two submissions served by two threads.  Each thread
    stores its gradient before either tests the size of the map, so both
    find the set complete: the gradients are processed twice and the
    counter ends at 2, where the submissions served one after the other
    leave it at 1. *)
Definition race : list nat :=
  [0; 0; 0; 0; 1; 1; 1; 1; 0; 1; 0; 0; 0; 0; 0; 0; 0; 1; 1; 1; 1; 1; 1; 1].

(** Two workers and three submissions.  Thread 0 serves the first
    submission of a window to its end.  Thread 1 serves the second, which
    completes the set, as far as emptying the pending map.  Thread 2 then
    serves the first submission of the next window to its end, and only
    after that does thread 1 set the ready flag and advance the counter. *)
Definition overtaking : list nat :=
  replicate 6 0 ++ replicate 7 1 ++ replicate 6 2 ++ replicate 5 1.

(** A poll of the ready flag by thread 3, run to its end. *)
Definition poll : list nat := replicate 3 3.
End ThreadedService.

(** ** The worker and its transport *)

Module Transport.
Import EASGD.

(** Whoever answers at [master_host:master_port]: a state and one handler
    per endpoint, each of which may fail. *)
Record Peer (F P : Type) := {
  on_center_variable : P → P * result (list (ndarray F));
  on_update : P → UpdateData F → P * result string;
  on_ready : P → P * result bool;
}.
Arguments on_center_variable {F P} _.
Arguments on_update {F P} _.
Arguments on_ready {F P} _.

(** The peer's state and the requests put on the wire so far. *)
Record World (F P : Type) := {
  peer : P;
  sent : list (Request F);
}.
Arguments peer {F P} _.
Arguments sent {F P} _.

(** A computation ends with a value, with an exception, or not within the
    number of polls it was allowed. *)
Inductive outcome (A : Type) :=
| Return (a : A)
| Throw (e : exn)
| Diverge.
Arguments Return {A} a.
Arguments Throw {A} e.
Arguments Diverge {A}.

Definition M (F P A : Type) : Type := World F P → World F P * outcome A.

Section Monad.
Context {F P : Type} (api : Peer F P).

Definition mret {A} (a : A) : M F P A := λ w, (w, Return a).

Definition mbind {A B} (c : M F P A) (k : A → M F P B) : M F P B :=
  λ w, match c w with
       | (w', Return a) => k a w'
       | (w', Throw e) => (w', Throw e)
       | (w', Diverge) => (w', Diverge)
       end.

Definition lift {A} (r : result A) : M F P A :=
  λ w, (w, match r with Ok a => Return a | Raise e => Throw e end).

Definition call {A} (req : Request F) (handler : P → P * result A) : M F P A :=
  λ w, let r := handler (peer w) in
       ({| peer := r.1; sent := sent w ++ [req] |},
        match r.2 with Ok a => Return a | Raise e => Throw e end).

(** [rest_get] on [/center_variable] and on [/ready], [rest_post] on
    [/update]; pickling and unpickling cancel out. *)
Definition rest_get_center_variable (host : string) (port : Z) :
    M F P (list (ndarray F)) :=
  call GetCenterVariable (on_center_variable api).

Definition rest_get_ready (host : string) (port : Z) : M F P bool :=
  call IsReady (on_ready api).

Definition rest_post_update (host : string) (port : Z) (data : UpdateData F) :
    M F P string :=
  call (SubmitGradient data) (λ p, on_update api p data).
End Monad.
End Transport.

Module EASGDWorker.
Import EASGD Transport.

Record t (F : Type) := {
  model : ModelDict F;
  features_column : string;
  label_column : string;
  master_host : string;
  master_port : Z;
  master_variable : option (list (ndarray F));
  batch_size : Z;
  (* set by [fetch_center_variable]; no such attribute before *)
  center_variable : option (list (ndarray F));
}.
Arguments model {F} _.
Arguments features_column {F} _.
Arguments label_column {F} _.
Arguments master_host {F} _.
Arguments master_port {F} _.
Arguments master_variable {F} _.
Arguments batch_size {F} _.
Arguments center_variable {F} _.

(** The locals of [train] when the gradient has been computed. *)
Record Locals (F Model : Type) := {
  l_self : t F;
  l_X : list Value;
  l_Y : list Value;
  l_W : list (ndarray F);
  l_model : Model;
  l_gradient : list (ndarray F);
}.
Arguments l_self {F Model} _.
Arguments l_X {F Model} _.
Arguments l_Y {F Model} _.
Arguments l_W {F Model} _.
Arguments l_model {F Model} _.
Arguments l_gradient {F Model} _.

Section Worker.
Context {F Model P : Type} `{Keras F Model} `{Scalar F} (api : Peer F P).
Local Abbreviation t := (t F).

Local Notation "x ←m e1 ; e2" := (mbind e1 (λ x, e2))
  (at level 100, e1 at next level, e2 at level 200, right associativity).

Definition init (keras_model : ModelDict F) (features_col label_col : string)
    (batch_size : Z) : t :=
  {| model := keras_model; features_column := features_col;
     label_column := label_col; master_host := "127.0.0.1";
     master_port := 5000; master_variable := None;
     batch_size := batch_size; center_variable := None |}.

Definition master_send_gradient (self : t) (worker_id : Z)
    (gradient : list (ndarray F)) : M F P string :=
  let data := {| worker_id := worker_id; gradient := gradient |} in
  rest_post_update api (master_host self) (master_port self) data.

Definition master_is_ready (self : t) : M F P bool :=
  rest_get_ready api (master_host self) (master_port self).

Definition fetch_center_variable (self : t) : M F P t :=
  cv ←m rest_get_center_variable api (master_host self) (master_port self);
  mret {| model := model self; features_column := features_column self;
          label_column := label_column self; master_host := master_host self;
          master_port := master_port self;
          master_variable := master_variable self;
          batch_size := batch_size self; center_variable := Some cv |}.

(** [train] down to the line that computes the gradient. *)
Definition train_gradient (self : t) (index : Z) (iterator : list Row) :
    M F P (Locals F Model) :=
  (* Deserialize the Keras model. *)
  model ←m lift (deserialize_keras_model (EASGDWorker.model self));
  (* Build the training matrix. *)
  X ←m lift (rmapM (λ x, Row_getitem x (features_column self)) iterator);
  Y ←m lift (rmapM (λ x, Row_getitem x (label_column self)) iterator);
  (* Fetch the master (center) variable. *)
  self ←m fetch_center_variable self;
  (* Compile the model. *)
  let model := compile model in
  (* Fetch the current weight parameterization. *)
  let W := get_weights model in
  (* Train the model with the current batch. *)
  let model := fit model X Y in
  (* Compute the gradient. *)
  gradient ←m lift (asarray_sub (get_weights model) W);
  mret {| l_self := self; l_X := X; l_Y := Y; l_W := W; l_model := model;
          l_gradient := gradient |}.

(** [while not self.master_is_ready(): time.sleep(1)], with a bound on
    the number of polls. *)
Fixpoint wait_ready (polls : nat) (self : t) : M F P unit :=
  match polls with
  | O => λ w, (w, Diverge)
  | S polls' =>
      r ←m master_is_ready self;
      if r : bool then mret () else wait_ready polls' self
  end.

Definition train (polls : nat) (self : t) (index : Z) (iterator : list Row) :
    M F P (t * list Value) :=
  locals ←m train_gradient self index iterator;
  _ ←m master_send_gradient (l_self locals) index (l_gradient locals);
  (* Wait until all clients synchronized the gradient. *)
  _ ←m wait_ready polls (l_self locals);
  mret (l_self locals, []).
End Worker.
End EASGDWorker.

(** ** The trainers' [train] *)

Module Spark.
(** A dataframe is the list of its partitions.  Dataframes are immutable:
    [repartition] gives a new one and leaves its argument as it was. *)
Definition DataFrame := list (list Row).

Class Cluster := repartition : DataFrame → Z → DataFrame.

Class ClusterLaws `{Cluster} : Prop := {
  repartition_length (data : DataFrame) (n : Z) :
    (0 < n)%Z → Z.of_nat (length (repartition data n)) = n;
  repartition_rows (data : DataFrame) (n : Z) :
    (0 < n)%Z → concat (repartition data n) ≡ₚ concat data;
}.

(** [mapPartitions(f)] and [mapPartitionsWithIndex(f)] followed by
    [collect()], when [f] only depends on its arguments. *)
Definition mapPartitions {B} (f : list Row → list B) (data : DataFrame) : list B :=
  concat (map f data).

Definition mapPartitionsWithIndex {B} (f : Z → list Row → list B)
    (data : DataFrame) : list B :=
  concat (imap (λ i part, f (Z.of_nat i) part) data).
End Spark.

Module Trainers.
Import Spark.

(** A call [worker.train(index, iterator)] handed to the cluster. *)
Record Task := {
  task_index : Z;
  task_rows : list Row;
}.

Section Train.
Context {F Model : Type} `{Keras F Model} `{Cluster}.

(** [EASGD.train], as far as the calls of [worker.train] that it hands to
    the cluster: the worker it builds and the calls, one per partition.
    What a call does is [EASGDWorker.train]; whether the calls come back,
    and so whether [train] returns, is not said here. *)
Definition EASGD_train (self : EASGD.t F Model) (data : DataFrame) :
    EASGDWorker.t F * list Task :=
  (* Specify the parameters to the worker method. *)
  let worker := EASGDWorker.init (EASGD.master_model self)
                  (EASGD.features_column self) (EASGD.label_column self) 1000 in
  (* Prepare the data, and start the distributed training. *)
  let _ := repartition data (EASGD.num_workers self) in
  let tasks := mapPartitionsWithIndex
                 (λ index iterator, [{| task_index := index; task_rows := iterator |}])
                 data in
  (worker, tasks).

(** [EnsembleTrainer.train], as far as the partitions it hands to
    [worker.train]. *)
Definition EnsembleTrainer_train_partitions (num_models : Z) (data : DataFrame) :
    list (list Row) :=
  (* Repartition the data to fit the number of models. *)
  let data := repartition data num_models in
  mapPartitions (λ iterator, [iterator]) data.
End Train.
End Trainers.

(** ** A small instance of the Keras interface, to run the definitions on *)

Module Toy.
#[global] Instance Z_scalar : Scalar Z := Z.sub.

(** A model with one weight tensor; its JSON spells the tensor's length. *)
Definition Model := list Z.

Fixpoint spell (n : nat) : string :=
  match n with
  | O => EmptyString
  | S n' => String "w"%char (spell n')
  end.

#[global] Instance toy_keras : Keras Z Model := {|
  to_json m := spell (length m);
  model_from_json s := Ok (replicate (String.length s) 0%Z);
  get_weights m := [m];
  set_weights m ws :=
    match ws with
    | [a] => if decide (length a = length m) then Ok a else Raise ValueError
    | _ => Raise ValueError
    end;
  compile m := m;
  fit m X Y := map (λ w, (w + Z.of_nat (length X))%Z) m;
|}.

(** The service of a trainer as the peer of a worker. *)
Definition coordinator : Transport.Peer Z (EASGD.t Z Model) := {|
  Transport.on_center_variable s := (s, Ok (EASGD.easgd_service.center_variable s));
  Transport.on_update s data :=
    let r := EASGD.easgd_service.update s data in (r.1, Ok r.2);
  Transport.on_ready s := (s, Ok (EASGD.easgd_service.ready s));
|}.

(** A trainer over a model with the given weights, as [reset] leaves it. *)
Definition trainer (weights : Model) (num_workers : Z) : EASGD.t Z Model := {|
  EASGD.master_model := serialize_keras_model weights;
  EASGD.features_column := "features";
  EASGD.label_column := "label";
  EASGD.num_workers := num_workers;
  EASGD.model := weights;
  EASGD.gradients := ∅;
  EASGD.ready := false;
  EASGD.iteration := 0;
  EASGD.stdout := [];
|}.

Definition submission (worker_id : Z) (gradient : list Z) : EASGD.UpdateData Z :=
  {| EASGD.worker_id := worker_id; EASGD.gradient := [gradient] |}.

(** A worker whose snapshot has the weight 10, two rows for it to train
    on, and a service whose center variable is 20. *)
Definition worker : EASGDWorker.t Z :=
  EASGDWorker.init (serialize_keras_model ([10%Z] : Model)) "features" "label" 1000.

Definition rows : list Row :=
  [[("features"%string, VAtom (AObj 1)); ("label"%string, VAtom (AInt 0))];
   [("features"%string, VAtom (AObj 2)); ("label"%string, VAtom (AInt 1))]].

Definition world0 : Transport.World Z (EASGD.t Z Model) :=
  {| Transport.peer := trainer [20%Z] 2; Transport.sent := [] |}.

(** A cluster that deals the rows out to [n] partitions in turn. *)
Fixpoint deal (n : nat) (rows : list Row) (parts : list (list Row)) (i : nat) :
    list (list Row) :=
  match rows with
  | [] => parts
  | row :: rows' =>
      deal n rows' (alter (λ part, part ++ [row]) (i mod n)%nat parts) (S i)
  end.

#[global] Instance toy_cluster : Spark.Cluster :=
  λ data n, deal (Z.to_nat n) (concat data) (replicate (Z.to_nat n) []) 0.
End Toy.

(** ** The service as the peer of its workers *)

Module Service.
Import EASGD Transport.

(** The routes of [easgd_service] behind the three endpoints; the
    connection itself does not fail. *)
Definition service_peer {F Model : Type} `{Keras F Model} : Peer F (EASGD.t F Model) := {|
  on_center_variable s := (s, Ok (easgd_service.center_variable s));
  on_update s data := let r := easgd_service.update s data in (r.1, Ok r.2);
  on_ready s := (s, Ok (easgd_service.ready s));
|}.
End Service.

(** The lock discipline of a piece of route code: [code_ok held code] is
    the state of the mutex after [code] when the ready flag and the model
    are only touched with the mutex held, the mutex is only taken when free
    and only released when held, and the body of a test leaves the mutex as
    it found it; it is [None] otherwise. *)
Module LockDiscipline.
Import ThreadedService.

Section Code.
Context {F : Type}.

Fixpoint instr_ok (held : bool) (i : Instr F) : option bool :=
  match i with
  | Acquire => if held then None else Some true
  | Release => if held then Some false else None
  | StoreReady _ | LoadReady | LoadWeights => if held then Some true else None
  | IfComplete body =>
      let after :=
        (fix go (held : bool) (code : list (Instr F)) : option bool :=
           match code with
           | [] => Some held
           | i :: code' =>
               match instr_ok held i with
               | Some held' => go held' code'
               | None => None
               end
           end) held body in
      if decide (after = Some held) then Some held else None
  | StoreGradient _ | ProcessGradients | ClearGradients | IncrIteration | ReturnOK =>
      Some held
  end.

Fixpoint code_ok (held : bool) (code : list (Instr F)) : option bool :=
  match code with
  | [] => Some held
  | i :: code' =>
      match instr_ok held i with
      | Some held' => code_ok held' code'
      | None => None
      end
  end.

(** The accesses that the mutex is there for. *)
Definition protected (a : Access) : Prop := field a = FReady ∨ field a = FModel.
End Code.

Section Machine.
Context {F Model : Type} `{Keras F Model}.

(** Every thread's remaining code keeps the discipline from the state of
    the mutex as that thread sees it, and every access to the ready flag or
    the model made so far was made with the mutex held. *)
Definition disciplined (m : Machine F Model) : Prop :=
  (∀ tid th, threads m !! tid = Some th →
             code_ok (holds m tid) (code th) = Some false) ∧
  Forall (λ a, protected a → locked a = true) (accesses m).
End Machine.
End LockDiscipline.

(** ** Label helpers, transformers and the predictor *)

(** These raise more kinds of exception than the code above. *)
Inductive error :=
| Builtin (e : exn)
| IndexError
| NotImplementedError.

Inductive try (A : Type) :=
| Got (a : A)
| Raised (e : error).
Arguments Got {A} a.
Arguments Raised {A} e.

Definition tbind {A B} (r : try A) (k : A → try B) : try B :=
  match r with
  | Got a => k a
  | Raised e => Raised e
  end.

Notation "x ←t e1 ; e2" := (tbind e1 (λ x, e2))
  (at level 100, e1 at next level, e2 at level 200, right associativity).

Definition of_result {A} (r : result A) : try A :=
  match r with
  | Ok a => Got a
  | Raise e => Raised (Builtin e)
  end.

#[global] Instance exn_eq_dec : EqDecision exn.
Proof. solve_decision. Defined.

#[global] Instance error_eq_dec : EqDecision error.
Proof. solve_decision. Defined.

Fixpoint tmapM {A B} (f : A → try B) (l : list A) : try (list B) :=
  match l with
  | [] => Got []
  | a :: l' => b ←t f a; bs ←t tmapM f l'; Got (b :: bs)
  end.

Module Labels.

(** The floats of a label vector: 0.0, 1.0 and the comparison [>=]. *)
Class PyFloat (F : Type) := {
  f_zero : F;
  f_one : F;
  f_ge : F → F → bool;
}.

(** What numpy makes of an object used as the index of a vector of one
    dimension in an assignment [vector[x] = v]: the entry at an integer, a
    negative one counted from the end; the entries at each integer of a
    sequence; or every entry. *)
Inductive Index :=
| Entry (z : Z)
| Entries (zs : list Z)
| Every.

(** The objects held in rows, as far as the transformers look into them:
    [as_index x] is numpy's reading of the object [x] as an index,
    [DenseVector l] the vector object with the entries [l], [item x i] the
    indexing [x[i]] and [float i] the float of an integer. *)
Class Objects (F : Type) := {
  as_index : Value → try Index;
  DenseVector : list F → Value;
  item : Value → Z → try F;
  float : Z → Value;
}.

(** What is assumed of them: an [int] is read as the index of one entry,
    and a [DenseVector] indexed from 0 gives its entries and [IndexError]
    past their end. *)
Class ObjectsLaws (F : Type) `{Objects F} : Prop := {
  as_index_int (z : Z) : as_index (VAtom (AInt z)) = Got (Entry z);
  item_DenseVector (l : list F) (i : nat) :
    item (DenseVector l) (Z.of_nat i) =
    match l !! i with Some x => Got x | None => Raised IndexError end;
}.

Section Vectors.
Context {F : Type} `{PyFloat F} `{Objects F}.

(** [np.zeros(n_dim)]. *)
Definition zeros (n_dim : Z) : try (list F) :=
  if decide (n_dim < 0)%Z then Raised (Builtin ValueError)
  else Got (replicate (Z.to_nat n_dim) f_zero).

(** [vector[x] = v] for an integer [x]: a negative index counts from the
    end. *)
Definition setitem_at (vector : list F) (x : Z) (v : F) : try (list F) :=
  let n := Z.of_nat (length vector) in
  if decide (0 ≤ x < n)%Z then Got (<[Z.to_nat x := v]> vector)
  else if decide (- n ≤ x < 0)%Z then Got (<[Z.to_nat (n + x) := v]> vector)
  else Raised IndexError.

(** [vector[x] = v].  With a sequence of integers every one of them has to
    be in range. *)
Definition setitem (vector : list F) (x : Index) (v : F) : try (list F) :=
  match x with
  | Entry z => setitem_at vector z v
  | Entries zs =>
      fold_left (λ r z, vector ←t r; setitem_at vector z v) zs (Got vector)
  | Every => Got (replicate (length vector) v)
  end.

Definition to_vector (x : Value) (n_dim : Z) : try (list F) :=
  vector ←t zeros n_dim;
  index ←t as_index x;
  vector ←t setitem vector index f_one;
  Got vector.

(** The loop shared by the three [_transform] and [_predict] methods:
    [rows = []], then [try: for row in iterator: rows.append(f(row))],
    [except catch: pass], and [return iter(rows)]. *)
Fixpoint try_for (catch : error) (f : Row → try Row) (iterator rows : list Row) :
    try (list Row) :=
  match iterator with
  | [] => Got rows
  | row :: iterator' =>
      match f row with
      | Got new_row => try_for catch f iterator' (rows ++ [new_row])
      | Raised e => if decide (e = catch) then Got rows else Raised e
      end
  end.
End Vectors.

Record LabelVectorTransformer := {
  lv_input_column : string;
  lv_output_column : string;
  lv_output_dim : Z;
}.

Record LabelIndexTransformer (F : Type) := {
  input_column : string;
  output_column : string;
  output_dim : Z;
  activation_threshold : F;
  default_index : Z;
}.
Arguments input_column {F} _.
Arguments output_column {F} _.
Arguments output_dim {F} _.
Arguments activation_threshold {F} _.
Arguments default_index {F} _.

Record ModelPredictor (F : Type) := {
  mp_model : ModelDict F;
  mp_features_column : string;
  mp_output_column : string;
}.
Arguments mp_model {F} _.
Arguments mp_features_column {F} _.
Arguments mp_output_column {F} _.

(** [model.predict(np.asarray([features]))[0]]. *)
Class KerasPredict (F Model : Type) := predict : Model → Value → try (list F).

Section Transformers.
Context {F Model : Type} `{PyFloat F} `{Objects F} `{Keras F Model}
  `{KerasPredict F Model}.

Definition LabelVectorTransformer_transform (self : LabelVectorTransformer)
    (iterator : list Row) : try (list Row) :=
  try_for (Builtin TypeError)
    (λ row,
       label ←t of_result (Row_getitem row (lv_input_column self));
       v ←t to_vector label (lv_output_dim self);
       new_row ←t of_result
         (new_dataframe_row row (lv_output_column self) (DenseVector v));
       Got new_row)
    iterator [].

(** [get_index]: the loop over [range(0, self.output_dim)]. *)
Fixpoint get_index_in (self : LabelIndexTransformer F) (vector : Value)
    (range : list Z) : try Z :=
  match range with
  | [] => Got (default_index self)
  | index :: range' =>
      x ←t item vector index;
      if f_ge x (activation_threshold self) then Got index
      else get_index_in self vector range'
  end.

Definition get_index (self : LabelIndexTransformer F) (vector : Value) : try Z :=
  get_index_in self vector (seqZ 0 (output_dim self)).

Definition LabelIndexTransformer_transform (self : LabelIndexTransformer F)
    (iterator : list Row) : try (list Row) :=
  try_for (Builtin ValueError)
    (λ row,
       output_vector ←t of_result (Row_getitem row (input_column self));
       index ←t get_index self output_vector;
       new_row ←t of_result
         (new_dataframe_row row (output_column self) (float index));
       Got new_row)
    iterator [].

Definition ModelPredictor_init (keras_model : Model) (features_col output_col : string) :
    ModelPredictor F :=
  {| mp_model := serialize_keras_model keras_model;
     mp_features_column := features_col; mp_output_column := output_col |}.

Definition ModelPredictor_predict (self : ModelPredictor F) (iterator : list Row) :
    try (list Row) :=
  model ←t of_result (deserialize_keras_model (mp_model self));
  try_for (Builtin ValueError)
    (λ row,
       features ←t of_result (Row_getitem row (mp_features_column self));
       Y0 ←t predict model features;
       new_row ←t of_result
         (new_dataframe_row row (mp_output_column self) (DenseVector Y0));
       Got new_row)
    iterator [].
End Transformers.
End Labels.

(** ** The ensemble trainer *)

Module Ensemble.
Import Spark.

(** The [History] object that [fit] returns. *)
Class KerasHistory (Model History : Type) :=
  fit_history : Model → list Value → list Value → History.

Record EnsembleTrainer (F : Type) := {
  master_model : ModelDict F;
  num_models : Z;
  label_transformer : option (Value → Value);
  merge_models : bool;
  features_column : string;
  label_column : string;
}.
Arguments master_model {F} _.
Arguments num_models {F} _.
Arguments label_transformer {F} _.
Arguments merge_models {F} _.
Arguments features_column {F} _.
Arguments label_column {F} _.

Record EnsembleTrainerWorker (F : Type) := {
  w_model : ModelDict F;
  w_features_column : string;
  w_label_column : string;
  w_label_transformer : option (Value → Value);
}.
Arguments w_model {F} _.
Arguments w_features_column {F} _.
Arguments w_label_column {F} _.
Arguments w_label_transformer {F} _.

Section Train.
Context {F Model History : Type} `{Keras F Model} `{KerasHistory Model History}
  `{Cluster}.

Definition EnsembleTrainerWorker_train (self : EnsembleTrainerWorker F)
    (iterator : list Row) : try (list (History * Model)) :=
  (* Deserialize the Keras model. *)
  model ←t of_result (deserialize_keras_model (w_model self));
  X ←t of_result (rmapM (λ x, Row_getitem x (w_features_column self)) iterator);
  (* Check if a label transformer is available. *)
  Y ←t match w_label_transformer self with
       | Some label_transformer =>
           of_result (rmapM (λ x, v ←r Row_getitem x (w_label_column self);
                                  Ok (label_transformer v)) iterator)
       | None => of_result (rmapM (λ x, Row_getitem x (w_label_column self)) iterator)
       end;
  let model := compile model in
  (* Fit the model with the data. *)
  let history := fit_history model X Y in
  let model := fit model X Y in
  let partitionResult := (history, model) in
  Got [partitionResult].

Definition merge (self : EnsembleTrainer F) (models : list (History * Model)) :
    try (History * Model) :=
  Raised NotImplementedError.

(** [train]: the list of the trained models followed by the merged model,
    [None] standing for Python's [None]. *)
Definition train (self : EnsembleTrainer F) (data : DataFrame) :
    try (list (option (History * Model))) :=
  (* Repartition the data to fit the number of models. *)
  let data := repartition data (num_models self) in
  (* Allocate an ensemble worker. *)
  let worker := {| w_model := master_model self;
                   w_features_column := features_column self;
                   w_label_column := label_column self;
                   w_label_transformer := label_transformer self |} in
  (* Train the models, and collect them as a list. *)
  models ←t tmapM (EnsembleTrainerWorker_train worker) data;
  let models := concat models in
  (* Check if the models need to be merged. *)
  merged_model ←t (if merge_models self
                   then m ←t merge self models; Got (Some m)
                   else Got None);
  (* Append the optional merged model to the list. *)
  Got ((Some <$> models) ++ [merged_model]).
End Train.
End Ensemble.

(** Instances of the further interfaces on the small model. *)
Module ToyObjects.
Import Labels Ensemble.

#[global] Instance Z_float : PyFloat Z := {|
  f_zero := 0%Z;
  f_one := 1%Z;
  f_ge x y := bool_decide (y ≤ x)%Z;
|}.

(** A list whose items are all integers, as the list of them. *)
Fixpoint ints (l : list Value) : option (list Z) :=
  match l with
  | [] => Some []
  | VAtom (AInt z) :: l' => zs ← ints l'; Some (z :: zs)
  | _ => None
  end.

(** Vectors are lists of integers, and an integer is its own float.  As
    an index, an integer stands for its entry, a list of integers for
    theirs, [None] and [True] for every entry and [False] for none; a
    string is no index of a vector, for which numpy raises [IndexError],
    and in this small model neither is anything else. *)
#[global] Instance toy_objects : Objects Z := {|
  as_index x := match x with
                | VAtom (AInt z) => Got (Entry z)
                | VAtom ANone | VAtom (ABool true) => Got Every
                | VAtom (ABool false) => Got (Entries [])
                | VList l => match ints l with
                             | Some zs => Got (Entries zs)
                             | None => Raised IndexError
                             end
                | _ => Raised IndexError
                end;
  DenseVector l := VList ((λ z, VAtom (AInt z)) <$> l);
  item x i :=
    match x with
    | VList l =>
        if decide (0 ≤ i)%Z then
          match l !! Z.to_nat i with
          | Some (VAtom (AInt z)) => Got z
          | Some _ => Raised (Builtin TypeError)
          | None => Raised IndexError
          end
        else Raised IndexError
    | _ => Raised (Builtin TypeError)
    end;
  float i := VAtom (AInt i);
|}.

#[global] Instance toy_history : KerasHistory Toy.Model nat :=
  λ model X Y, length X.

#[global] Instance toy_predict : KerasPredict Z Toy.Model :=
  λ model features, Got model.

(** Transformers with the default column names, for three classes. *)
Definition label_vectors : LabelVectorTransformer :=
  {| lv_input_column := "label"; lv_output_column := "label_vectorized";
     lv_output_dim := 3 |}.

Definition label_indices : LabelIndexTransformer Z :=
  {| input_column := "prediction"; output_column := "predicted_index";
     output_dim := 3; activation_threshold := 5%Z; default_index := 0 |}.

Definition prediction (vector : list Z) : Row :=
  [("prediction"%string, DenseVector vector)].

(** A row with neither a label nor a prediction. *)
Definition unlabelled : Row := [("features"%string, VAtom (AObj 3))].

(** A row with no features. *)
Definition featureless : Row := [("label"%string, VAtom (AInt 0))].

(** A row with a column called [self]. *)
Definition selfish : Row :=
  [("features"%string, VAtom (AObj 5)); ("label"%string, VAtom (AInt 1));
   ("self"%string, VAtom (AObj 6))].

Definition labelled (label : Value) : Row :=
  [("features"%string, VAtom (AObj 4)); ("label"%string, label)].

Definition ensemble (merge_models : bool) : EnsembleTrainer Z :=
  {| master_model := serialize_keras_model ([10%Z] : Toy.Model);
     num_models := 2; label_transformer := None; merge_models := merge_models;
     features_column := "features"; label_column := "label" |}.

(** A master that cannot be reached. *)
Definition offline : Transport.Peer Z unit := {|
  Transport.on_center_variable s := (s, Raise URLError);
  Transport.on_update s data := (s, Raise URLError);
  Transport.on_ready s := (s, Raise URLError);
|}.

(** A service with one worker, which every submission completes. *)
Definition world1 : Transport.World Z (EASGD.t Z Toy.Model) :=
  {| Transport.peer := Toy.trainer [20%Z] 1; Transport.sent := [] |}.
End ToyObjects.

(** * Properties *)

Module RowFacts.
Section Dict.
Context {K V : Type} `{EqDecision K}.
Implicit Types (d pairs : list (K * V)) (k : K) (v : V).

Lemma dict_get_set d k v k' :
  dict_get (dict_set d k v) k' = if decide (k = k') then Some v else dict_get d k'.
Proof.
  induction d as [|[k0 v0] d IH]; simpl.
  - repeat case_decide; congruence.
  - destruct (decide (k0 = k)) as [->|Hne]; simpl.
    + repeat case_decide; congruence.
    + rewrite IH. repeat case_decide; congruence.
Qed.

Lemma dict_set_keys d k v :
  (dict_set d k v).*1 = if decide (k ∈ d.*1) then d.*1 else d.*1 ++ [k].
Proof.
  induction d as [|[k0 v0] d IH]; [done |]. cbn [dict_set].
  destruct (decide (k0 = k)) as [->|Hne]; rewrite !fmap_cons; cbn [fst].
  - rewrite decide_True; [done | by left].
  - rewrite IH. destruct (decide (k ∈ d.*1)) as [Hin|Hnin].
    + rewrite decide_True; [done | by right].
    + rewrite decide_False; [done |].
      rewrite not_elem_of_cons. split; [congruence | done].
Qed.

Lemma dict_set_NoDup d k v : NoDup d.*1 → NoDup (dict_set d k v).*1.
Proof.
  intros Hd. rewrite dict_set_keys. case_decide as Hin; [done |].
  apply NoDup_app. split_and!; [done | | apply NoDup_singleton].
  intros x Hx ->%list_elem_of_singleton. done.
Qed.

Lemma dict_fold_NoDup pairs d :
  NoDup d.*1 → NoDup (fold_left (λ d kv, dict_set d kv.1 kv.2) pairs d).*1.
Proof.
  revert d. induction pairs as [|[k v] pairs IH]; simpl; intros d Hd; [done |].
  by apply IH, dict_set_NoDup.
Qed.

Lemma dict_NoDup pairs : NoDup (dict pairs).*1.
Proof. apply dict_fold_NoDup. constructor. Qed.

Lemma dict_get_None d k : dict_get d k = None ↔ k ∉ d.*1.
Proof.
  induction d as [|[k0 v0] d IH]; simpl.
  - split; [intros _; apply not_elem_of_nil | done].
  - case_decide as Hk; subst.
    + split; [done | intros []; by left].
    + rewrite IH, not_elem_of_cons.
      split; [by intros ?; split; [congruence |] | by intros [_ ?]].
Qed.

Lemma dict_get_Some d k v : NoDup d.*1 → dict_get d k = Some v ↔ (k, v) ∈ d.
Proof.
  induction d as [|[k0 v0] d IH]; simpl; intros Hd.
  - split; [done | by intros ?%elem_of_nil].
  - apply NoDup_cons in Hd as [Hk0 Hd]. case_decide as Hk; subst.
    + split.
      * intros [= ->]. by left.
      * intros [[= ->]|Hin]%elem_of_cons; [done |].
        destruct Hk0. apply list_elem_of_fmap. by exists (k, v).
    + rewrite IH by done. split; [by right |].
      intros [[= -> ->]|Hin]%elem_of_cons; done.
Qed.

Lemma dict_get_Permutation d d' k :
  NoDup d.*1 → d ≡ₚ d' → dict_get d k = dict_get d' k.
Proof.
  intros Hd Hp.
  assert (Hd' : NoDup d'.*1) by by rewrite <-Hp.
  destruct (dict_get d k) as [v|] eqn:E.
  - symmetry. apply dict_get_Some; [done |]. rewrite <-Hp. by apply dict_get_Some.
  - symmetry. apply dict_get_None. rewrite <-Hp. by apply dict_get_None.
Qed.

Lemma dict_get_fold pairs d k :
  NoDup pairs.*1 →
  dict_get (fold_left (λ d kv, dict_set d kv.1 kv.2) pairs d) k =
  match dict_get pairs k with Some v => Some v | None => dict_get d k end.
Proof.
  revert d. induction pairs as [|[k0 v0] pairs IH]; simpl; intros d Hp; [done |].
  apply NoDup_cons in Hp as [Hk0 Hp]. rewrite IH by done.
  case_decide as Hk; subst.
  - apply dict_get_None in Hk0. rewrite Hk0, dict_get_set. by rewrite decide_True.
  - rewrite dict_get_set. by rewrite decide_False.
Qed.

Lemma dict_get_dict pairs k :
  NoDup pairs.*1 → dict_get (dict pairs) k = dict_get pairs k.
Proof. intros Hp. unfold dict. rewrite dict_get_fold by done. by destruct dict_get. Qed.

Lemma dict_get_app d d' k :
  dict_get (d ++ d') k =
  match dict_get d k with Some v => Some v | None => dict_get d' k end.
Proof.
  induction d as [|[k0 v0] d IH]; [done |]. simpl. by case_decide.
Qed.

(** Of the pairs with one key, [dict] keeps the value of the last. *)
Lemma dict_get_fold_last pairs d k :
  dict_get (fold_left (λ d kv, dict_set d kv.1 kv.2) pairs d) k =
  match dict_get (reverse pairs) k with Some v => Some v | None => dict_get d k end.
Proof.
  revert d. induction pairs as [|[k0 v0] pairs IH]; intros d; [done |].
  simpl. rewrite IH, reverse_cons, dict_get_app, dict_get_set.
  destruct (dict_get (reverse pairs) k); [done |]. simpl. by case_decide.
Qed.

Lemma dict_get_dict_last pairs k :
  dict_get (dict pairs) k = dict_get (reverse pairs) k.
Proof. unfold dict. rewrite dict_get_fold_last. by destruct dict_get. Qed.

Lemma elem_of_dict_set d k v (p : K * V) :
  p ∈ dict_set d k v → p = (k, v) ∨ p ∈ d.
Proof.
  induction d as [|[k0 v0] d IH]; simpl.
  - intros ->%list_elem_of_singleton. by left.
  - case_decide.
    + intros [->|Hin]%elem_of_cons; [by left | right; by right].
    + intros [->|Hin]%elem_of_cons; [right; by left |].
      destruct (IH Hin) as [->|?]; [by left | right; by right].
Qed.

Lemma elem_of_dict_fold pairs d (p : K * V) :
  p ∈ fold_left (λ d kv, dict_set d kv.1 kv.2) pairs d → p ∈ d ∨ p ∈ pairs.
Proof.
  revert d. induction pairs as [|[k0 v0] pairs IH]; intros d; simpl; [by left |].
  intros [Hin|Hin]%IH.
  - apply elem_of_dict_set in Hin as [->|?]; [right; by left | by left].
  - right. by right.
Qed.

Lemma elem_of_dict pairs (p : K * V) : p ∈ dict pairs → p ∈ pairs.
Proof. intros [Hin|Hin]%elem_of_dict_fold; [by apply elem_of_nil in Hin | done]. Qed.

Lemma dict_keys pairs k : k ∈ (dict pairs).*1 ↔ k ∈ pairs.*1.
Proof.
  assert (Hrev : dict_get (dict pairs) k = None ↔ k ∉ pairs.*1).
  { rewrite dict_get_dict_last, dict_get_None, fmap_reverse, elem_of_reverse. done. }
  rewrite dict_get_None in Hrev.
  split; intros Hin.
  - destruct (decide (k ∈ pairs.*1)) as [|Hn]; [done |]. by apply Hrev in Hn.
  - destruct (decide (k ∈ (dict pairs).*1)) as [|Hn]; [done |]. by apply Hrev in Hn.
Qed.

Lemma dict_set_key_elem d k v k' : k' ∈ (dict_set d k v).*1 ↔ k' = k ∨ k' ∈ d.*1.
Proof.
  rewrite dict_set_keys. case_decide as Hk.
  - split; [by right | by intros [->|?]].
  - rewrite elem_of_app, list_elem_of_singleton. tauto.
Qed.
End Dict.

Lemma conv_items_keys {K} (r : list (K * Value)) : (map conv_item r).*1 = r.*1.
Proof.
  induction r as [|[k v] r IH]; [done |].
  cbn [map conv_item]. by rewrite !fmap_cons, IH.
Qed.

Lemma dict_get_conv_items {K} `{EqDecision K} (r : list (K * Value)) k :
  dict_get (map conv_item r) k = conv <$> dict_get r k.
Proof.
  induction r as [|[k0 v0] r IH]; [done |]. simpl. by case_decide.
Qed.

Lemma asDict_get (self : Row) k :
  NoDup self.*1 → dict_get (asDict self) k = conv <$> dict_get self k.
Proof.
  intros Hnd. unfold asDict. fold (@conv_item string).
  rewrite dict_get_dict by by rewrite conv_items_keys.
  apply dict_get_conv_items.
Qed.

Lemma asDict_NoDup (self : Row) : NoDup (asDict self).*1.
Proof. apply dict_NoDup. Qed.

Lemma Row_new_get kwargs k :
  NoDup kwargs.*1 → dict_get (Row_new kwargs) k = dict_get kwargs k.
Proof.
  intros Hnd. symmetry. apply dict_get_Permutation; [done |].
  unfold Row_new. by rewrite merge_sort_Permutation.
Qed.

Lemma asDict_keys (self : Row) k : k ∈ (asDict self).*1 ↔ k ∈ self.*1.
Proof. unfold asDict. fold (@conv_item string). by rewrite dict_keys, conv_items_keys. Qed.

(** When the call of [Row] in [new_dataframe_row] raises, and the row that
    comes back when it does not. *)
Lemma new_dataframe_row_unfold (old : Row) (c : string) (v : Value) :
  new_dataframe_row old c v =
  if decide (c = "self"%string ∨ "self"%string ∈ old.*1) then Raise TypeError
  else Ok (Row_new (dict_set (asDict old) c v)).
Proof.
  unfold new_dataframe_row, Row_kwargs.
  destruct (decide ("self"%string ∈ (dict_set (asDict old) c v).*1)) as [Hin|Hout].
  - rewrite decide_True; [done |].
    apply dict_set_key_elem in Hin as [->|Hin]; [by left | right].
    by apply asDict_keys.
  - rewrite decide_False; [done |]. intros Hself. apply Hout.
    apply dict_set_key_elem. destruct Hself as [->|Hin]; [by left | right].
    by apply asDict_keys.
Qed.

Lemma new_dataframe_row_Ok (old : Row) (c : string) (v : Value) (new_row : Row) :
  new_dataframe_row old c v = Ok new_row ↔
  (c ≠ "self"%string ∧ "self"%string ∉ old.*1) ∧
  new_row = Row_new (dict_set (asDict old) c v).
Proof.
  rewrite new_dataframe_row_unfold. case_decide as Hself.
  - split; [done |]. intros [[Hc Hold] _]. by destruct Hself.
  - split.
    + intros [= <-]. split; [| done]. split; [tauto | tauto].
    + by intros [_ ->].
Qed.

Lemma conv_row_free : ∀ obj, row_free obj = true → conv obj = obj.
Proof.
  fix IH 1. intros [a|r|l|d]; simpl; intros Hfree; [done | done | |].
  - f_equal. induction l as [|x l IHl]; [done |]. simpl in *.
    apply andb_prop in Hfree as [Hx Hl]. f_equal; [by apply IH | by apply IHl].
  - f_equal. induction d as [|[k x] d IHd]; [done |]. simpl in *.
    apply andb_prop in Hfree as [Hx Hd]. f_equal; [| by apply IHd].
    f_equal. by apply IH.
Qed.

Lemma new_dataframe_row_get old c v new_row c' :
  NoDup old.*1 → new_dataframe_row old c v = Ok new_row →
  dict_get new_row c' =
  if decide (c = c') then Some v else conv <$> dict_get old c'.
Proof.
  intros Hnd [_ ->]%new_dataframe_row_Ok.
  rewrite Row_new_get by apply dict_set_NoDup, asDict_NoDup.
  rewrite dict_get_set. case_decide; [done |]. by apply asDict_get.
Qed.

(** C10, as the code has it.  When the named column or a column of the
    old row is called [self], the call of [Row] raises [TypeError] and there
    is no new row.  Otherwise, for a row whose column names are pairwise
    distinct, the new row holds the given value, as it is, at the named
    column; at every other column of the old row it holds the old value
    as converted by the recursive [asDict], which is the old value itself
    when that contains no [Row]; and it has no further column.  The old
    row is an argument passed by value and is not changed. *)
Theorem new_dataframe_row_frame (old_row : Row) (column_name : string)
    (column_value : Value) :
  NoDup old_row.*1 →
  (column_name = "self"%string ∨ "self"%string ∈ old_row.*1 →
   new_dataframe_row old_row column_name column_value = Raise TypeError) ∧
  (column_name ≠ "self"%string → "self"%string ∉ old_row.*1 →
   ∃ new_row,
     new_dataframe_row old_row column_name column_value = Ok new_row ∧
     Row_getitem new_row column_name = Ok column_value ∧
     (∀ c, c ≠ column_name →
        match Row_getitem old_row c with
        | Ok x => Row_getitem new_row c = Ok (conv x) ∧
                  (row_free x = true → Row_getitem new_row c = Ok x)
        | Raise e => Row_getitem new_row c = Raise e
        end)).
Proof.
  intros Hnd. split.
  - intros Hself. rewrite new_dataframe_row_unfold. by rewrite decide_True.
  - intros Hc Hold.
    assert (Hnew : new_dataframe_row old_row column_name column_value
                   = Ok (Row_new (dict_set (asDict old_row) column_name column_value))).
    { by apply new_dataframe_row_Ok. }
    eexists. split; [exact Hnew |]. unfold Row_getitem. split.
    + rewrite (new_dataframe_row_get _ _ _ _ _ Hnd Hnew). by rewrite decide_True.
    + intros c Hne. rewrite (new_dataframe_row_get _ _ _ _ _ Hnd Hnew).
      rewrite decide_False by done.
      destruct (dict_get old_row c) as [x|]; simpl; [| done].
      split; [done |]. intros Hfree. by rewrite conv_row_free.
Qed.

Lemma new_dataframe_row_frame_witness :
  let old_row := [("label"%string, VAtom (AInt 3));
                  ("features"%string, VList [VAtom (AObj 1); VAtom (AObj 2)])] in
  (∃ new_row,
     new_dataframe_row old_row "prediction" (VAtom (AObj 7)) = Ok new_row ∧
     Row_getitem new_row "prediction" = Ok (VAtom (AObj 7)) ∧
     Row_getitem new_row "label" = Ok (VAtom (AInt 3))) ∧
  new_dataframe_row old_row "self" (VAtom (AObj 7)) = Raise TypeError.
Proof.
  intros old_row.
  assert (Hnd : NoDup old_row.*1) by (apply (bool_decide_unpack _); vm_compute; exact I).
  split.
  - destruct (proj2 (new_dataframe_row_frame old_row "prediction" (VAtom (AObj 7)) Hnd))
      as (new_row & Hrow & Hnew & Hold).
    + discriminate.
    + apply (bool_decide_unpack _). vm_compute. exact I.
    + exists new_row. split; [exact Hrow |]. split; [exact Hnew |].
      assert (Hne : "label"%string ≠ "prediction"%string) by discriminate.
      exact (proj2 (Hold "label"%string Hne) eq_refl).
  - apply (proj1 (new_dataframe_row_frame old_row "self" (VAtom (AObj 7)) Hnd)).
    by left.
Defined.

(** The claim as first stated fails on a row that holds a row, whose
    value comes back as a dict; on a row with two columns of one name,
    where indexing the old row finds the first and the new row keeps the
    last; and on a row with a column called [self], for which no row is
    returned at all. *)
Lemma new_dataframe_row_frame_counterexample :
  let nested := [("a"%string, VRow [("x"%string, VAtom (AInt 1))])] in
  let twice := [("a"%string, VAtom (AInt 1)); ("a"%string, VAtom (AInt 2))] in
  let selfish := [("self"%string, VAtom (AInt 1))] in
  (new_row ←r new_dataframe_row nested "b" (VAtom ANone); Row_getitem new_row "a")
    ≠ Row_getitem nested "a" ∧
  (new_row ←r new_dataframe_row twice "b" (VAtom ANone); Row_getitem new_row "a")
    ≠ Row_getitem twice "a" ∧
  new_dataframe_row selfish "b" (VAtom ANone) = Raise TypeError.
Proof. split_and!; vm_compute; (discriminate || reflexivity). Qed.
End RowFacts.

Module ToyFacts.
Import Toy.

Lemma length_spell n : String.length (spell n) = n.
Proof. induction n as [|n IH]; simpl; congruence. Qed.

#[global] Instance toy_laws : KerasLaws Z Model.
Proof.
  split.
  - intros m. exists (replicate (length m) 0%Z). split; [| simpl].
    + simpl. by rewrite length_spell.
    + by rewrite length_replicate.
  - intros m [|a [|b ws]] Hs; simpl in *; try done.
    exists a. rewrite decide_True; [done | congruence].
  - intros m m' [|a [|b ws]]; simpl; try done.
    case_decide; [| done]. by intros [= ->].
  - done.
  - intros m X Y. simpl. by rewrite length_map.
Qed.
End ToyFacts.

Module ClusterFacts.
Import Spark Toy.

Lemma length_deal n rows parts i : length (deal n rows parts i) = length parts.
Proof.
  revert parts i. induction rows as [|row rows IH]; intros parts i; simpl; [done |].
  by rewrite IH, length_alter.
Qed.

Lemma concat_alter_snoc (parts : list (list Row)) j row :
  j < length parts →
  concat (alter (λ part, part ++ [row]) j parts) ≡ₚ concat parts ++ [row].
Proof.
  revert j. induction parts as [|part parts IH]; intros j Hj; simpl in *; [lia |].
  destruct j as [|j]; simpl.
  - rewrite <-!app_assoc. f_equiv. apply Permutation_app_comm.
  - etrans; [apply Permutation_app_head, (IH j); lia |]. by rewrite app_assoc.
Qed.

Lemma concat_deal n rows parts i :
  0 < n → length parts = n → concat (deal n rows parts i) ≡ₚ concat parts ++ rows.
Proof.
  intros Hn. revert parts i.
  induction rows as [|row rows IH]; intros parts i Hlen; simpl.
  - by rewrite app_nil_r.
  - etrans; [apply IH; by rewrite length_alter |].
    etrans; [apply Permutation_app_tail, concat_alter_snoc |].
    + rewrite Hlen. apply Nat.mod_upper_bound. lia.
    + by rewrite <-app_assoc.
Qed.

Lemma concat_replicate_nil {A} n : concat (replicate n (@nil A)) = [].
Proof. induction n as [|n IH]; [done |]. simpl. exact IH. Qed.

#[global] Instance toy_cluster_laws : ClusterLaws.
Proof.
  split; intros data n Hn; unfold repartition, toy_cluster.
  - rewrite length_deal, length_replicate. lia.
  - rewrite concat_deal, concat_replicate_nil; [done | lia |].
    by rewrite length_replicate.
Qed.
End ClusterFacts.

Module CodecFacts.
Section Facts.
Context {F Model : Type} `{Keras F Model} {laws : KerasLaws F Model}.

Lemma deserialize_keras_model_weights (d : ModelDict F) (model : Model) :
  deserialize_keras_model d = Ok model → get_weights model = d_weights d.
Proof.
  unfold deserialize_keras_model. cbv zeta.
  destruct (model_from_json (d_model d)) as [m0|e]; simpl; [| done].
  apply set_weights_Ok.
Qed.

(** C8 (round trip of the model codec).  Deserializing a serialized
    model succeeds, and the model obtained has the weight tensors of the
    original one. *)
Theorem deserialize_serialize_weights (model : Model) :
  ∃ model', deserialize_keras_model (serialize_keras_model model) = Ok model' ∧
            get_weights model' = get_weights model.
Proof.
  destruct (model_from_json_to_json model) as (m0 & Hjson & Hshapes).
  destruct (set_weights_shapes m0 (get_weights model)) as (model' & Hset); [done |].
  exists model'. split.
  - unfold deserialize_keras_model, serialize_keras_model. simpl.
    by rewrite Hjson.
  - by apply set_weights_Ok in Hset.
Qed.
End Facts.

Lemma deserialize_serialize_weights_witness :
  ∃ model', deserialize_keras_model (serialize_keras_model ([3; 1; 4]%Z : Toy.Model))
            = Ok model' ∧ get_weights model' = [[3; 1; 4]%Z].
Proof. exact (deserialize_serialize_weights (laws := ToyFacts.toy_laws) [3; 1; 4]%Z). Defined.
End CodecFacts.

Module CoordinatorFacts.
Import EASGD.

Section Facts.
Context {F Model : Type} `{Keras F Model}.
Local Abbreviation t := (t F Model).
Implicit Types (self : t) (data : UpdateData F) (subs : list (UpdateData F))
  (reqs : list (Request F)) (pending : gmap Z (list (ndarray F))).

Lemma update_unfold self data :
  easgd_service.update self data =
  if decide (completes self data)
  then (with_iteration
          (set_ready (with_gradients (process_gradients (at_check self data)) ∅) true)
          (iteration self + 1), "OK"%string)
  else (at_check self data, "OK"%string).
Proof. reflexivity. Qed.

Lemma update_token self data : (easgd_service.update self data).2 = "OK"%string.
Proof. rewrite update_unfold. by case_decide. Qed.

Lemma update_model self data : model (easgd_service.update self data).1 = model self.
Proof. rewrite update_unfold. by case_decide. Qed.

Lemma update_num_workers self data :
  num_workers (easgd_service.update self data).1 = num_workers self.
Proof. rewrite update_unfold. by case_decide. Qed.

Lemma update_open self data :
  ¬ completes self data → (easgd_service.update self data).1 = at_check self data.
Proof. intros Hopen. rewrite update_unfold. by rewrite decide_False. Qed.

Lemma update_completes self data :
  completes self data →
  gradients (easgd_service.update self data).1 = ∅ ∧
  iteration (easgd_service.update self data).1 = (iteration self + 1)%Z ∧
  ready (easgd_service.update self data).1 = true.
Proof. intros Hfull. rewrite update_unfold. by rewrite decide_True. Qed.

Lemma submit_all_app self subs1 subs2 :
  submit_all self (subs1 ++ subs2) = submit_all (submit_all self subs1) subs2.
Proof. apply fold_left_app. Qed.

Lemma store_app pending subs1 subs2 :
  store pending (subs1 ++ subs2) = store (store pending subs1) subs2.
Proof. apply fold_left_app. Qed.

Lemma size_insert_le pending (w : Z) (g : list (ndarray F)) :
  size (<[w := g]> pending) ≤ S (size pending).
Proof. rewrite map_size_insert. destruct (pending !! w); simpl; lia. Qed.

Lemma size_store_le pending subs :
  size (store pending subs) ≤ size pending + length subs.
Proof.
  revert pending. induction subs as [|data subs IH]; intros pending; simpl; [lia |].
  etrans; [apply IH |].
  pose proof (size_insert_le pending (worker_id data) (gradient data)). lia.
Qed.

Lemma dom_store pending subs :
  dom (store pending subs) = dom pending ∪ list_to_set (worker_id <$> subs).
Proof.
  revert pending. induction subs as [|data subs IH]; intros pending; simpl.
  - set_solver.
  - rewrite IH, dom_insert_L. set_solver.
Qed.

Lemma size_store_distinct subs :
  NoDup (worker_id <$> subs) → size (store ∅ subs) = length subs.
Proof.
  intros Hnd. rewrite <-size_dom, dom_store, dom_empty_L, (left_id_L ∅ (∪)).
  rewrite size_list_to_set by done. apply length_fmap.
Qed.

(** While fewer gradients have come in than there are workers, nothing
    is aggregated: the gradients pile up and readiness stays withdrawn. *)
Lemma submit_all_open self subs :
  (Z.of_nat (size (gradients self) + length subs) < num_workers self)%Z →
  let self' := submit_all self subs in
  gradients self' = store (gradients self) subs ∧
  iteration self' = iteration self ∧
  num_workers self' = num_workers self ∧
  model self' = model self ∧
  stdout self' = stdout self ∧
  (subs ≠ [] → ready self' = false).
Proof.
  revert self. induction subs as [|data subs IH]; intros self Hlt; simpl in *.
  - done.
  - pose proof (size_insert_le (gradients self) (worker_id data) (gradient data)) as Hsz.
    assert (Hopen : ¬ completes self data).
    { unfold completes. simpl. lia. }
    rewrite (update_open _ _ Hopen).
    destruct (IH (at_check self data)) as (Hg & Hi & Hn & Hm & Ho & Hr).
    { simpl. lia. }
    split_and!; try done.
    intros _. destruct subs as [|data' subs]; [done |]. by apply Hr.
Qed.

Lemma run_state reqs self : (run self reqs).1 = submit_all self (submissions reqs).
Proof.
  revert self. induction reqs as [|req reqs IH]; intros self; [done |].
  simpl. rewrite IH. by destruct req.
Qed.

Lemma run_submit_all self subs :
  (run self (SubmitGradient <$> subs)).1 = submit_all self subs.
Proof.
  rewrite run_state. f_equal. unfold submissions.
  induction subs as [|data subs IH]; csimpl; [done | by f_equal].
Qed.

(** The answer at position [i] of a trace is the answer given in the
    state reached by the requests before it. *)
Lemma run_lookup reqs self i req :
  reqs !! i = Some req →
  (run self reqs).2 !! i = Some (serve (run self (take i reqs)).1 req).2.
Proof.
  revert self i. induction reqs as [|req0 reqs IH]; intros self i Hi; [done |].
  destruct i as [|i]; simpl in *.
  - by injection Hi as ->.
  - by apply IH.
Qed.

(** All workers of a window have reported, each once: the last
    submission completes the set. *)
Lemma submit_all_distinct self subs :
  gradients self = ∅ → subs ≠ [] →
  NoDup (worker_id <$> subs) → Z.of_nat (length subs) = num_workers self →
  let self' := submit_all self subs in
  gradients self' = ∅ ∧ iteration self' = (iteration self + 1)%Z ∧
  ready self' = true.
Proof.
  intros Hempty Hne Hnd Hlen.
  destruct (exists_last Hne) as (pre & data & ->).
  rewrite fmap_app in Hnd. apply NoDup_app in Hnd as (Hpre & Hfresh & _).
  rewrite length_app in Hlen. simpl in Hlen.
  intros self'. unfold self'. rewrite submit_all_app. simpl.
  destruct (submit_all_open self pre) as (Hg & Hi & Hn & _).
  { rewrite Hempty, map_size_empty. lia. }
  set (mid := submit_all self pre) in *.
  assert (Hnew : store ∅ pre !! worker_id data = None).
  { apply not_elem_of_dom. rewrite dom_store, dom_empty_L. intros Hin.
    apply (Hfresh (worker_id data)); [set_solver | by left]. }
  assert (Hfull : completes mid data).
  { unfold completes. simpl. rewrite Hg, Hempty, Hn.
    rewrite map_size_insert_None, size_store_distinct by done. lia. }
  destruct (update_completes mid data Hfull) as (? & ? & ?).
  split_and!; [done | congruence | done].
Qed.

(** The count of aggregations when the submissions are served one after
    the other.  From a state with no pending gradient and [num_workers] at
    least 1, once every worker id of [0, num_workers) has submitted exactly
    once, in any order, the pending map is empty again, the iteration
    counter has grown by exactly one and the ready flag is set. *)
Theorem convergent_aggregation_count self subs :
  (1 ≤ num_workers self)%Z → gradients self = ∅ →
  worker_id <$> subs ≡ₚ seqZ 0 (num_workers self) →
  let self' := (run self (SubmitGradient <$> subs)).1 in
  gradients self' = ∅ ∧ iteration self' = (iteration self + 1)%Z ∧
  ready self' = true.
Proof.
  intros HN Hempty Hperm self'. unfold self'. rewrite run_submit_all.
  assert (Hlen : length subs = Z.to_nat (num_workers self)).
  { rewrite <-(length_fmap worker_id), Hperm. apply length_seqZ. }
  apply submit_all_distinct; [done | | | lia].
  - intros ->. simpl in Hlen. lia.
  - rewrite Hperm. apply NoDup_seqZ.
Qed.

(** C3, as the code has it.  Serving a submission never touches the
    model: the center variable read after it is the one read before it,
    whatever the pending gradients are.  When the submission completes the
    set, all that happens besides is one printed line, the pending map
    emptied, the ready flag set and the counter advanced. *)
Theorem aggregation_keeps_center_variable self data :
  easgd_service.center_variable (easgd_service.update self data).1 = easgd_service.center_variable self ∧
  (completes self data →
   stdout (easgd_service.update self data).1 = stdout (process_gradients self) ∧
   gradients (easgd_service.update self data).1 = ∅ ∧
   ready (easgd_service.update self data).1 = true ∧
   iteration (easgd_service.update self data).1 = (iteration self + 1)%Z).
Proof.
  split.
  - unfold easgd_service.center_variable. cbv zeta. by rewrite update_model.
  - intros Hfull. rewrite update_unfold, decide_True by done. done.
Qed.

(** The gating of readiness when the requests are served one after the
    other.  In a trace that starts with no pending
    gradient, take any [IsReady] request and the submissions served
    before it.  If there is at least one and fewer than [num_workers],
    the answer is false; so a true answer after a first submission means
    that [num_workers] submissions have been served; and after
    [num_workers] submissions of distinct workers the answer is true. *)
Theorem readiness_gating self reqs i :
  gradients self = ∅ →
  reqs !! i = Some IsReady →
  let before := submissions (take i reqs) in
  ∃ flag,
    (run self reqs).2 !! i = Some (Ready flag) ∧
    (1 ≤ length before → (Z.of_nat (length before) < num_workers self)%Z →
     flag = false) ∧
    (1 ≤ length before → flag = true →
     (num_workers self ≤ Z.of_nat (length before))%Z) ∧
    (1 ≤ length before → Z.of_nat (length before) = num_workers self →
     NoDup (worker_id <$> before) → flag = true).
Proof.
  intros Hempty Hreq before.
  exists (ready (submit_all self before)). split.
  { rewrite (run_lookup _ _ _ _ Hreq). simpl. by rewrite run_state. }
  assert (Hin : 1 ≤ length before →
                (Z.of_nat (length before) < num_workers self)%Z →
                ready (submit_all self before) = false).
  { intros Hk Hlt. destruct (submit_all_open self before) as (_ & _ & _ & _ & _ & Hr).
    - rewrite Hempty, map_size_empty. simpl. lia.
    - apply Hr. intros Heq. rewrite Heq in Hk. simpl in Hk. lia. }
  split_and!.
  - done.
  - intros Hk Hflag.
    destruct (decide (num_workers self ≤ Z.of_nat (length before))%Z); [done |].
    rewrite Hin in Hflag by lia. done.
  - intros Hk Hlen Hnd. apply submit_all_distinct; try done.
    intros Heq. rewrite Heq in Hk. simpl in Hk. lia.
Qed.

Lemma size_insert_dom pending pending' (w : Z) (g g' : list (ndarray F)) :
  dom pending = dom pending' →
  size (<[w := g]> pending) = size (<[w := g']> pending').
Proof.
  intros Hdom. rewrite <-!size_dom, !dom_insert_L. by rewrite Hdom.
Qed.

(** Two services that differ at most in the gradients they hold, and hold
    gradients of the same workers, answer a submission of one worker alike
    and still differ at most in the gradients they hold afterwards. *)
Lemma update_blind self self' data data' :
  with_gradients self ∅ = with_gradients self' ∅ →
  dom (gradients self) = dom (gradients self') →
  worker_id data = worker_id data' →
  (easgd_service.update self data).2 = (easgd_service.update self' data').2 ∧
  with_gradients (easgd_service.update self data).1 ∅
    = with_gradients (easgd_service.update self' data').1 ∅ ∧
  dom (gradients (easgd_service.update self data).1)
    = dom (gradients (easgd_service.update self' data').1).
Proof.
  intros Hsame Hdom Hw.
  assert (Hsize : size (gradients (at_check self data))
                  = size (gradients (at_check self' data'))).
  { simpl. rewrite Hw. by apply size_insert_dom. }
  assert (HN : num_workers self = num_workers self').
  { by apply (f_equal num_workers) in Hsame. }
  rewrite !update_unfold.
  destruct (decide (completes self data)) as [Hfull|Hopen].
  - rewrite decide_True by (unfold completes in *; congruence).
    destruct self, self'. simpl in *. injection Hsame as -> -> -> -> -> -> -> ->.
    done.
  - rewrite decide_False by (unfold completes in *; congruence).
    destruct self, self'. simpl in *. injection Hsame as -> -> -> -> -> -> -> ->.
    split_and!; [done | done |]. rewrite !dom_insert_L. by rewrite Hdom, Hw.
Qed.

Lemma run_blind reqs self self' :
  with_gradients self ∅ = with_gradients self' ∅ →
  dom (gradients self) = dom (gradients self') →
  (run self reqs).2 = (run self' reqs).2 ∧
  with_gradients (run self reqs).1 ∅ = with_gradients (run self' reqs).1 ∅ ∧
  dom (gradients (run self reqs).1) = dom (gradients (run self' reqs).1).
Proof.
  revert self self'.
  induction reqs as [|req reqs IH]; intros self self' Hsame Hdom; [done |].
  assert (Hserve : (serve self req).2 = (serve self' req).2 ∧
                   with_gradients (serve self req).1 ∅
                     = with_gradients (serve self' req).1 ∅ ∧
                   dom (gradients (serve self req).1)
                     = dom (gradients (serve self' req).1)).
  { destruct req as [|data|]; cbn [serve fst snd].
    - split_and!; [| done | done]. f_equal.
      unfold easgd_service.center_variable. cbv zeta.
      apply (f_equal model) in Hsame. simpl in Hsame. by rewrite Hsame.
    - destruct (update_blind self self' data data Hsame Hdom eq_refl) as (-> & ? & ?).
      done.
    - split_and!; [| done | done]. f_equal.
      unfold easgd_service.ready, get_ready. cbv zeta.
      apply (f_equal ready) in Hsame. simpl in Hsame. by rewrite Hsame. }
  destruct Hserve as (Hans & Hs & Hd). destruct (IH _ _ Hs Hd) as (Hrest & ? & ?).
  cbn [run fst snd]. rewrite Hans, Hrest. done.
Qed.

(** C5, as the code has it, for requests served one after the other.
    When worker [w] already has a pending gradient and the window is still
    open, a second submission for [w] is acknowledged like any other; it
    replaces the pending gradient of [w] and leaves the size of the pending
    map, the iteration counter, the model and the printed output as they
    were, with the ready flag down.  The aggregation that a later
    submission sets off prints the line with the counter, drops the
    pending map, sets the ready flag and advances the counter; it reads no
    gradient.  So whichever gradient [w] submitted last, every later
    request gets the same answer and the service is left the same, the
    gradients still pending apart.  And a submission under any worker id at
    all is acknowledged and stored before the test of completeness. *)
Theorem duplicate_submission_overwrites self (w : Z) (g1 g2 : list (ndarray F)) :
  gradients self !! w = Some g1 →
  Z.of_nat (size (gradients self)) ≠ num_workers self →
  let r := easgd_service.update self {| worker_id := w; gradient := g2 |} in
  r.2 = "OK"%string ∧
  gradients r.1 = <[w := g2]> (gradients self) ∧
  size (gradients r.1) = size (gradients self) ∧
  iteration r.1 = iteration self ∧
  ready r.1 = false ∧
  stdout r.1 = stdout self ∧
  model r.1 = model self ∧
  (∀ data, completes r.1 data →
     let r' := easgd_service.update r.1 data in
     stdout r'.1 =
       stdout self ++ [nl +:+ nl +:+ nl +:+ "--- Processing Gradients in iteration "
                       +:+ pretty (iteration self) +:+ "---" +:+ nl +:+ nl +:+ nl] ∧
     model r'.1 = model self ∧
     gradients r'.1 = ∅ ∧
     ready r'.1 = true ∧
     iteration r'.1 = (iteration self + 1)%Z) ∧
  (∀ (g2' : list (ndarray F)) reqs,
     let r' := easgd_service.update self {| worker_id := w; gradient := g2' |} in
     (run r.1 reqs).2 = (run r'.1 reqs).2 ∧
     with_gradients (run r.1 reqs).1 ∅ = with_gradients (run r'.1 reqs).1 ∅ ∧
     dom (gradients (run r.1 reqs).1) = dom (gradients (run r'.1 reqs).1)) ∧
  (∀ (self' : t) (w' : Z) (g' : list (ndarray F)),
     let r' := easgd_service.update self' {| worker_id := w'; gradient := g' |} in
     r'.2 = "OK"%string ∧
     gradients (at_check self' {| worker_id := w'; gradient := g' |}) !! w' = Some g' ∧
     (¬ completes self' {| worker_id := w'; gradient := g' |} →
      gradients r'.1 = <[w' := g']> (gradients self'))).
Proof.
  intros Hw Hopen r.
  assert (Hsize : ∀ g, size (<[w := g]> (gradients self)) = size (gradients self)).
  { intros g. apply map_size_insert_Some. by eexists. }
  assert (Hnot : ∀ g, ¬ completes self {| worker_id := w; gradient := g |}).
  { intros g. unfold completes. simpl. by rewrite Hsize. }
  assert (Hr : ∀ g, (easgd_service.update self {| worker_id := w; gradient := g |}).1
                    = at_check self {| worker_id := w; gradient := g |}).
  { intros g. by apply update_open. }
  unfold r. rewrite (Hr g2). split_and!.
  - apply update_token.
  - done.
  - apply Hsize.
  - done.
  - done.
  - done.
  - done.
  - intros data Hfull. cbv zeta. rewrite update_unfold, decide_True by done.
    split_and!; reflexivity.
  - intros g2' reqs. cbv zeta. rewrite (Hr g2'). apply run_blind; [done |].
    simpl. by rewrite !dom_insert_L.
  - intros self' w' g'. cbv zeta. split_and!.
    + apply update_token.
    + simpl. apply lookup_insert_eq.
    + intros Hopen'. by rewrite update_open.
Qed.
End Facts.

Lemma convergent_aggregation_count_witness :
  let self := Toy.trainer [1%Z] 3 in
  let subs := [Toy.submission 2 [5%Z]; Toy.submission 0 [7%Z]; Toy.submission 1 [9%Z]] in
  let self' := (run self (SubmitGradient <$> subs)).1 in
  gradients self' = ∅ ∧ iteration self' = 1%Z ∧ ready self' = true.
Proof.
  intros self subs.
  apply (convergent_aggregation_count self subs).
  - vm_compute. discriminate.
  - reflexivity.
  - change ([2; 0; 1]%Z ≡ₚ [0; 1; 2]%Z).
    etrans; [apply perm_swap |]. apply perm_skip, perm_swap.
Defined.

(** With two workers and center weights 1, the gradients 1 and 2 come in
    and the set is complete; the center variable is still 1.  And no
    submission, to any trainer over any model type, changes the center
    variable. *)
Lemma aggregation_changes_center_counterexample :
  (let self := Toy.trainer [1%Z] 2 in
   let self1 := (easgd_service.update self (Toy.submission 0 [1%Z])).1 in
   completes self1 (Toy.submission 1 [2%Z]) ∧
   easgd_service.center_variable
     (easgd_service.update self1 (Toy.submission 1 [2%Z])).1 = [[1%Z]]) ∧
  ¬ (∃ (F Model : Type) (K : Keras F Model) (self : t F Model) (data : UpdateData F),
       completes self data ∧
       easgd_service.center_variable (easgd_service.update self data).1
         ≠ easgd_service.center_variable self).
Proof.
  split.
  - split; vm_compute; reflexivity.
  - intros (F & Model & K & self & data & _ & Hne). apply Hne.
    unfold easgd_service.center_variable. cbv zeta. by rewrite update_model.
Qed.

Lemma readiness_gating_witness :
  let self := Toy.trainer [1%Z] 2 in
  let reqs := [SubmitGradient (Toy.submission 0 [1%Z]); IsReady;
               SubmitGradient (Toy.submission 1 [2%Z]); IsReady] in
  (run self reqs).2 !! 1 = Some (Ready false) ∧
  (run self reqs).2 !! 3 = Some (Ready true).
Proof.
  intros self reqs. split.
  - destruct (readiness_gating self reqs 1 eq_refl eq_refl)
      as (flag & Hanswer & Hfalse & _ & _).
    rewrite Hanswer. do 2 f_equal. apply Hfalse; vm_compute; [lia | reflexivity].
  - destruct (readiness_gating self reqs 3 eq_refl eq_refl)
      as (flag & Hanswer & _ & _ & Htrue).
    rewrite Hanswer. do 2 f_equal. apply Htrue.
    + vm_compute. lia.
    + reflexivity.
    + apply (bool_decide_unpack _). vm_compute. exact I.
Defined.

Lemma duplicate_submission_overwrites_witness :
  let self := Toy.trainer [1%Z] 2 in
  let self1 := (easgd_service.update self (Toy.submission 0 [5%Z])).1 in
  let r := easgd_service.update self1 (Toy.submission 0 [6%Z]) in
  let later := [SubmitGradient (Toy.submission 1 [7%Z]); GetCenterVariable; IsReady] in
  r.2 = "OK"%string ∧
  gradients r.1 = {[ 0%Z := [[6%Z]] ]} ∧
  size (gradients r.1) = 1 ∧
  (run r.1 later).2
    = (run (easgd_service.update self1 (Toy.submission 0 [9%Z])).1 later).2.
Proof.
  intros self self1 r later.
  assert (Hw : gradients self1 !! 0%Z = Some [[5%Z]]) by (vm_compute; reflexivity).
  assert (Hopen : Z.of_nat (size (gradients self1)) ≠ num_workers self1)
    by (vm_compute; discriminate).
  destruct (duplicate_submission_overwrites self1 0 [[5%Z]] [[6%Z]] Hw Hopen)
    as (Htok & Hg & Hsize & _ & _ & _ & _ & _ & Hblind & _).
  split_and!.
  - exact Htok.
  - etrans; [exact Hg | vm_compute; reflexivity].
  - etrans; [exact Hsize | vm_compute; reflexivity].
  - exact (proj1 (Hblind [[9%Z]] later)).
Defined.

(** Two workers; worker 0 submits twice, the second time the gradient 6
    or the gradient 9, and worker 1 then completes the set.  The
    aggregation runs, and every answer and the whole state of the service
    are the same in both cases: the center variable is 1 as before, and
    the latest gradient of worker 0 is used for nothing. *)
Lemma aggregation_ignores_latest_counterexample :
  let self := Toy.trainer [1%Z] 2 in
  let trace (latest : Z) :=
    [SubmitGradient (Toy.submission 0 [5%Z]);
     SubmitGradient (Toy.submission 0 [latest]);
     SubmitGradient (Toy.submission 1 [7%Z]);
     GetCenterVariable; IsReady] in
  run self (trace 6%Z) = run self (trace 9%Z) ∧
  iteration (run self (trace 6%Z)).1 = 1%Z ∧
  (run self (trace 6%Z)).2 !! 3 = Some (CenterVariable [[1%Z]]).
Proof. split_and!; vm_compute; reflexivity. Qed.
End CoordinatorFacts.

Module WorkerFacts.
Import EASGD Transport EASGDWorker.

Section Arrays.
Context {F : Type} `{Scalar F}.
Implicit Types (xs ys ds : list (ndarray F)).

Lemma asarray_sub_shapes xs ys :
  shapes xs = shapes ys → ∃ ds, asarray_sub xs ys = Ok ds.
Proof.
  revert ys. induction xs as [|x xs IH]; intros [|y ys] Hs; try done.
  - by exists [].
  - injection Hs as Hxy Hs. destruct (IH ys Hs) as (ds & Hds).
    exists (zip_with fsub x y :: ds). simpl. unfold sub.
    rewrite decide_True by done. simpl. by rewrite Hds.
Qed.

Lemma asarray_sub_Ok xs ys ds :
  asarray_sub xs ys = Ok ds →
  shapes ds = shapes ys ∧
  ∀ i a b, xs !! i = Some a → ys !! i = Some b →
           length a = length b ∧ ds !! i = Some (zip_with fsub a b).
Proof.
  revert ys ds. induction xs as [|x xs IH]; intros [|y ys] ds Hsub; try done.
  - injection Hsub as <-. done.
  - simpl in Hsub. unfold sub in Hsub.
    destruct (decide (length x = length y)) as [Hlen|]; [| done]. simpl in Hsub.
    destruct (asarray_sub xs ys) as [ds'|] eqn:Hrec; [| done]. simpl in Hsub.
    injection Hsub as <-. destruct (IH ys ds' Hrec) as [Hs Hpt]. split.
    + simpl. rewrite Hs. f_equal. rewrite length_zip_with. lia.
    + intros [|i] a b Ha Hb; simpl in *.
      * injection Ha as <-. injection Hb as <-. done.
      * by apply Hpt.
Qed.
End Arrays.

Section Facts.
Context {F Model P : Type} `{Keras F Model} `{Scalar F} {laws : KerasLaws F Model}
  (api : Peer F P).
Implicit Types (self : t F) (world : World F P) (iterator : list Row).

(** What [train] has when it has computed the gradient. *)
Lemma train_gradient_Return self index iterator world world' locals :
  train_gradient api self index iterator world = (world', Return locals) →
  ∃ model0 cv,
    deserialize_keras_model (model self) = Ok model0 ∧
    rmapM (λ x, Row_getitem x (features_column self)) iterator = Ok (l_X locals) ∧
    rmapM (λ x, Row_getitem x (label_column self)) iterator = Ok (l_Y locals) ∧
    (on_center_variable api (peer world)).2 = Ok cv ∧
    center_variable (l_self locals) = Some cv ∧
    model (l_self locals) = model self ∧
    l_W locals = get_weights (compile model0) ∧
    l_model locals = fit (compile model0) (l_X locals) (l_Y locals) ∧
    asarray_sub (get_weights (l_model locals)) (l_W locals) = Ok (l_gradient locals) ∧
    sent world' = sent world ++ [GetCenterVariable].
Proof.
  unfold train_gradient, mbind, lift, fetch_center_variable, mbind,
    rest_get_center_variable, call, mret.
  destruct (deserialize_keras_model (model self)) as [model0|e]; [| done].
  destruct (rmapM _ iterator) as [X|e]; [| done].
  destruct (rmapM _ iterator) as [Y|e]; [| done].
  destruct (on_center_variable api (peer world)) as [p' [cv|e]] eqn:Hcv;
    simpl; [| done].
  destruct (asarray_sub _ _) as [g|e] eqn:Hsub; [| done].
  intros [= <- <-]. by exists model0, cv.
Qed.

(** Before the gradient is there, nothing but the fetch goes on the
    wire. *)
Lemma train_gradient_sent self index iterator world :
  let r := train_gradient api self index iterator world in
  sent r.1 = sent world ∨ sent r.1 = sent world ++ [GetCenterVariable].
Proof.
  unfold train_gradient, mbind, lift, fetch_center_variable, mbind,
    rest_get_center_variable, call, mret.
  destruct (deserialize_keras_model (model self)) as [model0|e]; [| by left].
  destruct (rmapM _ iterator) as [X|e]; [| by left].
  destruct (rmapM _ iterator) as [Y|e]; [| by left].
  destruct (on_center_variable api (peer world)) as [p' [cv|e]];
    simpl; [| by right].
  destruct (asarray_sub _ _) as [g|e]; by right.
Qed.

Lemma wait_ready_sent polls self world :
  ∃ k, sent (wait_ready api polls self world).1 = sent world ++ replicate k IsReady.
Proof.
  revert world. induction polls as [|polls IH]; intros world.
  - exists 0. simpl. by rewrite app_nil_r.
  - simpl. unfold mbind, master_is_ready, rest_get_ready, call.
    destruct (on_ready api (peer world)) as [p' [[|]|e]]; simpl.
    + by exists 1.
    + destruct (IH {| peer := p'; sent := sent world ++ [IsReady] |}) as (k & ->).
      exists (S k). simpl. by rewrite <-app_assoc.
    + by exists 1.
Qed.

(** C2, as the code has it.  When [train] gets to its gradient, the
    center variable it fetched has only been stored on the worker
    object; the weights the model starts training from, [W], are the
    weights of the model snapshot the worker was built with, whatever
    was fetched. *)
Theorem train_starts_from_snapshot self index iterator world world' locals :
  train_gradient api self index iterator world = (world', Return locals) →
  ∃ model0 cv,
    deserialize_keras_model (model self) = Ok model0 ∧
    (on_center_variable api (peer world)).2 = Ok cv ∧
    center_variable (l_self locals) = Some cv ∧
    model (l_self locals) = model self ∧
    l_W locals = d_weights (model self) ∧
    l_model locals = fit (compile model0) (l_X locals) (l_Y locals) ∧
    get_weights (compile model0) = d_weights (model self).
Proof.
  intros Hret.
  destruct (train_gradient_Return _ _ _ _ _ _ Hret)
    as (model0 & cv & Hd & _ & _ & Hcv & Hself & Hm & HW & Hfit & _).
  exists model0, cv.
  assert (Hw0 : get_weights (compile model0) = d_weights (model self)).
  { rewrite compile_get_weights. by apply CodecFacts.deserialize_keras_model_weights. }
  split_and!; try done. by rewrite HW.
Qed.

Lemma train_gradient_total self index iterator world model0 X Y cv :
  deserialize_keras_model (model self) = Ok model0 →
  rmapM (λ x, Row_getitem x (features_column self)) iterator = Ok X →
  rmapM (λ x, Row_getitem x (label_column self)) iterator = Ok Y →
  (on_center_variable api (peer world)).2 = Ok cv →
  ∃ locals, (train_gradient api self index iterator world).2 = Return locals.
Proof.
  intros Hd HX HY Hcv.
  destruct (asarray_sub_shapes (get_weights (fit (compile model0) X Y))
              (get_weights (compile model0))) as (g & Hg); [apply fit_shapes |].
  unfold train_gradient, mbind, lift, fetch_center_variable, mbind,
    rest_get_center_variable, call, mret.
  rewrite Hd, HX, HY, Hcv. simpl. rewrite Hg. by eexists.
Qed.

Lemma fetch_only (sent0 sent1 : list (Request F)) :
  sent1 = sent0 ∨ sent1 = sent0 ++ [GetCenterVariable] →
  ∃ new, sent1 = sent0 ++ new ∧ ∀ data, SubmitGradient data ∉ new.
Proof.
  intros [->| ->].
  - exists []. split; [by rewrite app_nil_r |]. intros data. apply not_elem_of_nil.
  - exists [GetCenterVariable]. split; [done |].
    intros data Hin%list_elem_of_singleton. done.
Qed.

(** From the submission on, the wire carries the submission and then
    polls. *)
Lemma train_tail_sent polls self index (g : list (ndarray F)) world :
  ∃ k,
    sent (mbind (master_send_gradient api self index g)
            (λ _, mbind (wait_ready api polls self)
                    (λ _, mret (self, @nil Value))) world).1
    = sent world ++ [SubmitGradient {| worker_id := index; gradient := g |}]
                 ++ replicate k IsReady.
Proof.
  unfold mbind at 1. unfold master_send_gradient, rest_post_update, call.
  destruct (on_update api (peer world) _).2 as [tok|e]; simpl.
  - unfold mbind, mret.
    match goal with |- context [wait_ready api polls self ?w] =>
      destruct (wait_ready_sent polls self w) as (k & Hk);
      exists k; destruct (wait_ready api polls self w) as [w3 [|?|]]
    end; simpl in *; by rewrite Hk, <-app_assoc.
  - by exists 0.
Qed.

(** C9 (the gradient a worker submits).  Whatever [train] puts on the
    wire, a submission among it carries the worker's partition index and
    a gradient that has, tensor by tensor and entry by entry, the
    model's weights after fitting minus the weights the deserialized
    model held before the center variable was fetched.  There is such a
    submission whenever the model can be deserialized, the rows have the
    two columns and the center variable can be fetched. *)
Theorem submitted_gradient_is_weight_difference polls self index iterator world :
  ∃ new,
    sent (train api polls self index iterator world).1 = sent world ++ new ∧
    (∀ data, SubmitGradient data ∈ new →
       worker_id data = index ∧
       ∃ model0 X Y,
         deserialize_keras_model (model self) = Ok model0 ∧
         rmapM (λ x, Row_getitem x (features_column self)) iterator = Ok X ∧
         rmapM (λ x, Row_getitem x (label_column self)) iterator = Ok Y ∧
         shapes (gradient data) = shapes (get_weights model0) ∧
         ∀ i post pre,
           get_weights (fit (compile model0) X Y) !! i = Some post →
           get_weights model0 !! i = Some pre →
           ∃ d, gradient data !! i = Some d ∧
                ∀ j x y, post !! j = Some x → pre !! j = Some y →
                         d !! j = Some (fsub x y)) ∧
    (∀ model0 X Y cv,
       deserialize_keras_model (model self) = Ok model0 →
       rmapM (λ x, Row_getitem x (features_column self)) iterator = Ok X →
       rmapM (λ x, Row_getitem x (label_column self)) iterator = Ok Y →
       (on_center_variable api (peer world)).2 = Ok cv →
       ∃ data, SubmitGradient data ∈ new).
Proof.
  pose proof (train_gradient_sent self index iterator world) as Hsent.
  pose proof (train_gradient_total self index iterator world) as Htotal.
  unfold train. unfold mbind at 1.
  destruct (train_gradient api self index iterator world)
    as [w1 [locals|e|]] eqn:Hgrad; simpl in Hsent, Htotal.
  - destruct (train_gradient_Return _ _ _ _ _ _ Hgrad)
      as (model0 & cv & Hd & HX & HY & Hcv & _ & _ & HW & Hfit & Hsub & Hw1).
    set (data0 := {| worker_id := index; gradient := l_gradient locals |}).
    destruct (train_tail_sent polls (l_self locals) index (l_gradient locals) w1)
      as (k & Hnew).
    fold data0 in Hnew. rewrite Hw1, <-app_assoc in Hnew.
    exists ([GetCenterVariable; SubmitGradient data0] ++ replicate k IsReady).
    split; [exact Hnew |]. split.
    + intros data Hin. simpl in Hin.
      apply elem_of_cons in Hin as [Hin|Hin]; [done |].
      apply elem_of_cons in Hin as [Hin|Hin];
        [| by apply elem_of_replicate in Hin as [? _]].
      injection Hin as ->. split; [done |].
      exists model0, (l_X locals), (l_Y locals).
      rewrite Hfit, HW in Hsub. apply asarray_sub_Ok in Hsub as [Hshapes Hpt].
      rewrite compile_get_weights in Hshapes, Hpt.
      split_and!; try done.
      intros i post pre Hpost Hpre.
      destruct (Hpt i post pre Hpost Hpre) as [_ Hd0].
      eexists. split; [exact Hd0 |].
      intros j x y Hx Hy. apply lookup_zip_with_Some. by exists x, y.
    + intros _ _ _ _ _ _ _ _. exists data0. right. by left.
  - destruct (fetch_only _ _ Hsent) as (new & Hnew & Hnone).
    exists new. split_and!; [done | by intros data ?%Hnone |].
    intros model0 X Y cv Hd HX HY Hcv.
    by destruct (Htotal model0 X Y cv Hd HX HY Hcv) as (? & ?).
  - destruct (fetch_only _ _ Hsent) as (new & Hnew & Hnone).
    exists new. split_and!; [done | by intros data ?%Hnone |].
    intros model0 X Y cv Hd HX HY Hcv.
    by destruct (Htotal model0 X Y cv Hd HX HY Hcv) as (? & ?).
Qed.
End Facts.

Lemma train_starts_from_snapshot_witness :
  ∃ locals,
    (train_gradient Toy.coordinator Toy.worker 0 Toy.rows Toy.world0).2 = Return locals ∧
    l_W locals = [[10%Z]].
Proof.
  eexists. split; [vm_compute; reflexivity |].
  destruct (train_starts_from_snapshot (laws := ToyFacts.toy_laws) Toy.coordinator
              Toy.worker 0 Toy.rows Toy.world0 _ _ eq_refl)
    as (model0 & cv & _ & _ & _ & _ & HW & _).
  exact HW.
Defined.

(** At a worker built from a snapshot with weight 10 whose service holds
    the center variable 20, the value 20 is fetched and stored, and the
    model is trained from 10: two rows take it to 12, not to 22. *)
Lemma train_starts_from_center_counterexample :
  ∃ world' locals,
    train_gradient Toy.coordinator Toy.worker 0 Toy.rows Toy.world0
      = (world', Return locals) ∧
    center_variable (l_self locals) = Some [[20%Z]] ∧
    l_W locals = [[10%Z]] ∧
    l_W locals ≠ [[20%Z]] ∧
    get_weights (l_model locals) = [[12%Z]].
Proof.
  eexists _, _. split; [vm_compute; reflexivity |].
  simpl. split_and!; done.
Qed.

Lemma submitted_gradient_is_weight_difference_witness :
  ∃ new,
    sent (train Toy.coordinator 3 Toy.worker 0 Toy.rows Toy.world0).1
      = sent Toy.world0 ++ new ∧
    SubmitGradient (Toy.submission 0 [2%Z]) ∈ new.
Proof.
  destruct (submitted_gradient_is_weight_difference (laws := ToyFacts.toy_laws)
              Toy.coordinator 3 Toy.worker 0 Toy.rows Toy.world0)
    as (new & Hsent & _ & _).
  exists new. split; [exact Hsent |].
  assert (Hnew : new = [GetCenterVariable; SubmitGradient (Toy.submission 0 [2%Z]);
                        IsReady; IsReady; IsReady]).
  { change (sent Toy.world0 ++ new) with new in Hsent.
    rewrite <-Hsent. vm_compute. reflexivity. }
  rewrite Hnew. right. left.
Defined.
End WorkerFacts.

Module ThreadFacts.
Import EASGD ThreadedService.

Section Facts.
Context {F Model : Type} `{Keras F Model}.
Implicit Types (s : EASGD.t F Model) (req : Request F) (data : UpdateData F).

(** Runs the steps of the schedule up to the test of completeness and
    leaves the test in the goal. *)
Ltac run_to_test :=
  unfold alone, run_schedule;
  change (replicate 12 0) with (replicate 5 0 ++ replicate 7 0);
  rewrite fold_left_app;
  match goal with
  | |- context [fold_left step (replicate 5 0) ?m0] =>
      let m5 := eval cbv [spawn replicate fold_left step exec route
                  ThreadedService.update ThreadedService.set_ready
                  lookup list_lookup insert list_insert fmap list_fmap app
                  threads code reply self mutex accesses touch
                  with_gradients with_ready gradients num_workers]
                in (fold_left step (replicate 5 0) m0) in
      change (fold_left step (replicate 5 0) m0) with m5
  end.

(** C6, on the code: what [update] does outside the mutex.  Even
    with the service to itself, a submission stores its gradient in the
    pending map and tests the size of the map while the mutex is free;
    when the set is complete, it also reads the counter, empties the
    map and reads and writes the counter that way.  Only the two writes of the
    ready flag are made under the mutex. *)
Theorem update_accesses_unlocked s data :
  unlocked_accesses (alone s (SubmitGradient data)) =
  [ {| thread := 0; field := FGradients; kind := Write; locked := false |};
    {| thread := 0; field := FGradients; kind := Read; locked := false |} ] ++
  (if decide (completes s data)
   then [ {| thread := 0; field := FIteration; kind := Read; locked := false |};
          {| thread := 0; field := FGradients; kind := Write; locked := false |};
          {| thread := 0; field := FIteration; kind := Read; locked := false |};
          {| thread := 0; field := FIteration; kind := Write; locked := false |} ]
   else []).
Proof.
  destruct (decide (completes s data)) as [Hfull|Hopen];
    run_to_test;
    match goal with |- context [decide ?P] => destruct (decide P) as [Hyes|Hno] end;
    first [ exfalso; apply Hno; exact Hfull
          | exfalso; apply Hopen; exact Hyes
          | reflexivity ].
Qed.

(** Run without interference, the three routes do what the request by
    request account of the service says, and leave the mutex free. *)
Lemma alone_serve s req :
  self (alone s req) = (serve s req).1 ∧
  (th ← threads (alone s req) !! 0; reply th) = Some (serve s req).2 ∧
  (code <$> threads (alone s req) !! 0) = Some [] ∧
  mutex (alone s req) = None.
Proof.
  destruct req as [|data|].
  - by destruct s.
  - unfold serve. cbn [fst snd]. rewrite CoordinatorFacts.update_unfold.
    destruct (decide (completes s data)) as [Hfull|Hopen];
      run_to_test;
      match goal with |- context [decide ?P] => destruct (decide P) as [Hyes|Hno] end;
      first [ exfalso; apply Hno; exact Hfull
            | exfalso; apply Hopen; exact Hyes
            | done ].
  - by destruct s.
Qed.

(** C1, on the code: two workers, no gradient pending and one submission
    from each of the worker ids 0 and 1, served by two threads in the order
    [race], in which each thread stores its gradient before either tests
    the size of the pending map.  Both requests are served to their end and
    acknowledged, the mutex is free, the pending map is empty and the ready
    flag is up, and the counter has grown by 2: both threads found the set
    complete, and both went through the aggregation. *)
Theorem concurrent_submissions_count_twice s (g0 g1 : list (ndarray F)) :
  num_workers s = 2%Z → gradients s = ∅ →
  let reqs := [SubmitGradient {| worker_id := 0; gradient := g0 |};
               SubmitGradient {| worker_id := 1; gradient := g1 |}] in
  let m := run_schedule (spawn s reqs) race in
  (code <$> threads m) = [[]; []] ∧
  (reply <$> threads m) = [Some (Ack "OK"); Some (Ack "OK")] ∧
  mutex m = None ∧
  gradients (self m) = ∅ ∧ EASGD.ready (self m) = true ∧
  iteration (self m) = (iteration s + 2)%Z.
Proof.
  intros HN Hempty reqs m. destruct s as [mm fc lc nw mdl gr rd it out].
  simpl in HN, Hempty. subst nw gr.
  split_and!; try (vm_compute; reflexivity).
  transitivity (it + 1 + 1)%Z; [vm_compute; reflexivity | simpl; lia].
Qed.

(** C4, on the code: two workers, no gradient pending, and the threads of
    three submissions in the order [overtaking].  The submissions of the
    workers 0 and 1 make up a window; the thread of the second has emptied
    the pending map, and has not yet set the ready flag, when a further
    submission of worker 0, the first of the next window, is served to its
    end.  When the three submissions are acknowledged the counter has
    grown by 1 and one gradient of two is pending; a poll of the ready
    flag made then is answered true. *)
Theorem ready_in_open_window s (g0 g1 g2 : list (ndarray F)) :
  num_workers s = 2%Z → gradients s = ∅ →
  let reqs := [SubmitGradient {| worker_id := 0; gradient := g0 |};
               SubmitGradient {| worker_id := 1; gradient := g1 |};
               SubmitGradient {| worker_id := 0; gradient := g2 |};
               IsReady] in
  let m := run_schedule (spawn s reqs) overtaking in
  let m' := run_schedule m poll in
  (code <$> threads m) = [[]; []; []; ThreadedService.ready] ∧
  (reply <$> threads m) = [Some (Ack "OK"); Some (Ack "OK"); Some (Ack "OK"); None] ∧
  iteration (self m) = (iteration s + 1)%Z ∧
  gradients (self m) = {[ 0%Z := g2 ]} ∧
  (code <$> threads m') = [[]; []; []; []] ∧
  (reply <$> threads m') !! 3 = Some (Some (Ready true)) ∧
  gradients (self m') = {[ 0%Z := g2 ]}.
Proof.
  intros HN Hempty reqs m m'. destruct s as [mm fc lc nw mdl gr rd it out].
  simpl in HN, Hempty. subst nw gr.
  split_and!; vm_compute; reflexivity.
Qed.
End Facts.

Lemma concurrent_submissions_count_twice_witness :
  let s := Toy.trainer [1%Z] 2 in
  let reqs := [SubmitGradient (Toy.submission 0 [1%Z]);
               SubmitGradient (Toy.submission 1 [2%Z])] in
  iteration (self (run_schedule (spawn s reqs) race)) = 2%Z ∧
  iteration (run s reqs).1 = 1%Z.
Proof.
  intros s reqs.
  destruct (concurrent_submissions_count_twice s [[1%Z]] [[2%Z]] eq_refl eq_refl)
    as (_ & _ & _ & _ & _ & Hcount).
  split; [exact Hcount | vm_compute; reflexivity].
Defined.

Lemma ready_in_open_window_witness :
  let s := Toy.trainer [1%Z] 2 in
  let reqs := [SubmitGradient (Toy.submission 0 [1%Z]);
               SubmitGradient (Toy.submission 1 [2%Z]);
               SubmitGradient (Toy.submission 0 [3%Z]);
               IsReady] in
  let m' := run_schedule (run_schedule (spawn s reqs) overtaking) poll in
  (reply <$> threads m') !! 3 = Some (Some (Ready true)) ∧
  size (gradients (self m')) = 1 ∧
  (run s reqs).2 !! 3 = Some (Ready false).
Proof.
  intros s reqs m'.
  destruct (ready_in_open_window s [[1%Z]] [[2%Z]] [[3%Z]] eq_refl eq_refl)
    as (_ & _ & _ & _ & _ & Hreply & Hpending).
  split_and!.
  - exact Hreply.
  - etrans; [exact (f_equal size Hpending) | vm_compute; reflexivity].
  - vm_compute. reflexivity.
Defined.

Lemma update_race_aggregates_twice :
  let s := Toy.trainer [1%Z] 2 in
  let reqs := [SubmitGradient (Toy.submission 0 [1%Z]);
               SubmitGradient (Toy.submission 1 [2%Z])] in
  let m := run_schedule (spawn s reqs) race in
  (code <$> threads m) = [[]; []] ∧
  iteration (self m) = 2%Z ∧
  length (stdout (self m)) = 2 ∧
  iteration (run s reqs).1 = 1%Z.
Proof. vm_compute. done. Qed.
End ThreadFacts.

Module TrainerFacts.
Import Spark Trainers.

Section Facts.
Context {F Model : Type} `{Keras F Model} `{Cluster}.

Lemma concat_imap_singleton {A B} (f : nat → A → B) (l : list A) :
  concat (imap (λ i a, [f i a]) l) = imap f l.
Proof.
  revert f. induction l as [|a l IH]; intros f; [done |].
  simpl. f_equal. apply IH.
Qed.

(** The tasks of [EASGD.train] are the partitions of the dataframe it
    was given, one task each, whatever [repartition] returns and
    whatever the number of workers is. *)
Lemma EASGD_train_tasks (self : EASGD.t F Model) (data : DataFrame) :
  (EASGD_train self data).2 =
  imap (λ i part, {| task_index := Z.of_nat i; task_rows := part |}) data.
Proof.
  unfold EASGD_train, mapPartitionsWithIndex. simpl.
  apply (concat_imap_singleton
           (λ i part, {| task_index := Z.of_nat i; task_rows := part |})).
Qed.

(** [EnsembleTrainer.train] does train on the repartitioned data. *)
Lemma EnsembleTrainer_train_repartitioned `{!ClusterLaws}
    (num_models : Z) (data : DataFrame) :
  (0 < num_models)%Z →
  Z.of_nat (length (EnsembleTrainer_train_partitions num_models data)) = num_models.
Proof.
  intros Hn. unfold EnsembleTrainer_train_partitions, mapPartitions.
  rewrite <-(repartition_length data num_models Hn) at 2. f_equal.
  induction (repartition data num_models) as [|part parts IH]; [done |].
  simpl. by rewrite IH.
Qed.
End Facts.

(** C7, on the code: a dataframe of three partitions given to a
    trainer with two workers.  Repartitioning it would give two
    partitions, and [EASGD.train] still hands out three tasks, with the
    indices 0, 1 and 2, over the three partitions as they were, where
    [EnsembleTrainer.train] works on the two new partitions. *)
Theorem EASGD_train_keeps_partitions :
  let self := Toy.trainer [1%Z] 2 in
  let row (n : Z) : Row := [("features"%string, VAtom (AInt n));
                            ("label"%string, VAtom (AInt 0))] in
  let data : DataFrame := [[row 1%Z]; [row 2%Z]; [row 3%Z]] in
  length (repartition data (EASGD.num_workers self)) = 2 ∧
  (EASGD_train self data).2 =
    [ {| task_index := 0; task_rows := [row 1%Z] |};
      {| task_index := 1; task_rows := [row 2%Z] |};
      {| task_index := 2; task_rows := [row 3%Z] |} ] ∧
  EnsembleTrainer_train_partitions 2 data = [[row 1%Z; row 3%Z]; [row 2%Z]].
Proof.
  intros self row data. split_and!; [reflexivity | | reflexivity].
  rewrite EASGD_train_tasks. reflexivity.
Qed.
End TrainerFacts.

Module RowExtras.
Import RowFacts.

#[global] Instance field_le_total : Total field_le.
Proof. intros x y. unfold field_le. apply String.leb_total. Qed.

Lemma Row_new_NoDup (old_row : Row) (column_name : string) (column_value : Value) :
  NoDup (Row_new (dict_set (asDict old_row) column_name column_value)).*1.
Proof.
  unfold Row_new.
  rewrite (fmap_Permutation _ _ _ (merge_sort_Permutation _ _)).
  apply dict_set_NoDup, asDict_NoDup.
Qed.

Lemma new_dataframe_row_NoDup (old_row : Row) (column_name : string)
    (column_value : Value) (new_row : Row) :
  new_dataframe_row old_row column_name column_value = Ok new_row →
  NoDup new_row.*1.
Proof. intros [_ ->]%new_dataframe_row_Ok. apply Row_new_NoDup. Qed.

Lemma new_dataframe_row_keys (old_row : Row) (column_name : string)
    (column_value : Value) (new_row : Row) (c : string) :
  new_dataframe_row old_row column_name column_value = Ok new_row →
  c ∈ new_row.*1 ↔ c = column_name ∨ c ∈ old_row.*1.
Proof.
  intros [_ ->]%new_dataframe_row_Ok. unfold Row_new.
  rewrite (fmap_Permutation _ _ _ (merge_sort_Permutation _ _)).
  by rewrite dict_set_key_elem, asDict_keys.
Qed.

(** X1: the columns of the new row.  The call raises [TypeError] exactly
    when the named column or a column of the old row is called [self].
    Every other call returns a row; its column names are pairwise
    distinct, in sorted order, and they are the names of the old row
    together with the named column. *)
Theorem new_dataframe_row_columns (old_row : Row) (column_name : string)
    (column_value : Value) :
  if decide (column_name = "self"%string ∨ "self"%string ∈ old_row.*1)
  then new_dataframe_row old_row column_name column_value = Raise TypeError
  else ∃ new_row,
    new_dataframe_row old_row column_name column_value = Ok new_row ∧
    NoDup new_row.*1 ∧
    Sorted field_le new_row ∧
    ∀ c, c ∈ new_row.*1 ↔ c = column_name ∨ c ∈ old_row.*1.
Proof.
  pose proof (new_dataframe_row_unfold old_row column_name column_value) as Hnew.
  case_decide as Hself; [done |].
  eexists. split; [exact Hnew |]. split_and!.
  - by eapply new_dataframe_row_NoDup.
  - apply Sorted_merge_sort. apply _.
  - intros c. by eapply new_dataframe_row_keys.
Qed.

Lemma row_free_conv : ∀ obj, row_free (conv obj) = true.
Proof.
  fix IH 1. intros [a|r|l|d]; simpl.
  - done.
  - fold (@conv_item string).
    assert (Hall : Forall (λ kv : string * Value, row_free kv.2 = true) (map conv_item r)).
    { induction r as [|[k x] r IHr]; simpl; constructor; [apply IH | apply IHr]. }
    assert (Hdict : Forall (λ kv : string * Value, row_free kv.2 = true)
                      (dict (map conv_item r))).
    { apply Forall_forall. intros p Hp%elem_of_dict.
      by apply (proj1 (Forall_forall _ _) Hall). }
    clear Hall. induction Hdict as [|[k x] d' Hx _ IHd]; [done |].
    simpl in *. by rewrite Hx.
  - induction l as [|x l IHl]; [done |]. simpl. by rewrite IH.
  - induction d as [|[k x] d IHd]; [done |]. simpl. by rewrite IH.
Qed.

(** X2: no [Row] is left inside.  Every value of the new row, the one set
    at the named column apart, is free of rows at any depth. *)
Theorem new_dataframe_row_values_row_free (old_row : Row) (column_name : string)
    (column_value : Value) (new_row : Row) (c : string) (x : Value) :
  new_dataframe_row old_row column_name column_value = Ok new_row →
  c ≠ column_name →
  Row_getitem new_row c = Ok x →
  row_free x = true.
Proof.
  intros Hnew Hc. unfold Row_getitem.
  destruct (dict_get _ c) as [y|] eqn:Hget; [| done]. intros [= ->].
  pose proof (new_dataframe_row_NoDup _ _ _ _ Hnew) as Hnd.
  apply dict_get_Some in Hget; [| done].
  apply new_dataframe_row_Ok in Hnew as [_ ->]. unfold Row_new in Hget.
  rewrite merge_sort_Permutation in Hget.
  apply elem_of_dict_set in Hget as [[= -> ->]|Hin]; [done |].
  unfold asDict in Hin. apply elem_of_dict in Hin. fold (@conv_item string) in Hin.
  apply list_elem_of_fmap in Hin as ([k y] & [= -> ->] & _).
  apply row_free_conv.
Qed.

Lemma new_dataframe_row_values_row_free_witness :
  ∃ new_row,
    new_dataframe_row [("a"%string, VRow [("x"%string, VAtom (AInt 1))])]
      "b" (VAtom ANone) = Ok new_row ∧
    Row_getitem new_row "a" = Ok (VDict [(AStr "x", VAtom (AInt 1))]) ∧
    row_free (VDict [(AStr "x", VAtom (AInt 1))]) = true.
Proof.
  eexists. split; [vm_compute; reflexivity |]. split; [reflexivity |].
  eapply (new_dataframe_row_values_row_free
            [("a"%string, VRow [("x"%string, VAtom (AInt 1))])] "b" (VAtom ANone) _ "a").
  - vm_compute. reflexivity.
  - discriminate.
  - reflexivity.
Defined.

Lemma map_reverse {A B} (f : A → B) (l : list A) :
  map f (reverse l) = reverse (map f l).
Proof.
  induction l as [|a l IH]; [done |]. simpl. by rewrite !reverse_cons, map_app, IH.
Qed.

Lemma asDict_get_last (self : Row) k :
  dict_get (asDict self) k = conv <$> dict_get (reverse self) k.
Proof.
  unfold asDict. fold (@conv_item string).
  rewrite dict_get_dict_last, <-dict_get_conv_items. f_equal.
  symmetry. apply map_reverse.
Qed.

Lemma new_dataframe_row_get_last old c v new_row c' :
  new_dataframe_row old c v = Ok new_row →
  dict_get new_row c' =
  if decide (c = c') then Some v else conv <$> dict_get (reverse old) c'.
Proof.
  intros [_ ->]%new_dataframe_row_Ok.
  rewrite Row_new_get by apply dict_set_NoDup, asDict_NoDup.
  rewrite dict_get_set. case_decide; [done |]. apply asDict_get_last.
Qed.

(** X3: repeated column names.  When the old row has several columns of
    one name, a new row that is returned has one, with the converted value
    of the last of them; so in general the new row holds, at a column
    other than the named one, what indexing the old row read backwards
    finds. *)
Theorem new_dataframe_row_keeps_last (old_row : Row) (column_name : string)
    (column_value : Value) (new_row : Row) (c : string) :
  new_dataframe_row old_row column_name column_value = Ok new_row →
  c ≠ column_name →
  Row_getitem new_row c =
  match Row_getitem (reverse old_row) c with
  | Ok x => Ok (conv x)
  | Raise e => Raise e
  end.
Proof.
  intros Hnew Hc. unfold Row_getitem. rewrite (new_dataframe_row_get_last _ _ _ _ _ Hnew).
  rewrite decide_False by done. by destruct (dict_get (reverse old_row) c).
Qed.

Lemma new_dataframe_row_keeps_last_witness :
  ∃ new_row,
    new_dataframe_row [("a"%string, VAtom (AInt 1)); ("a"%string, VAtom (AInt 2))]
      "b" (VAtom ANone) = Ok new_row ∧
    Row_getitem new_row "a" = Ok (VAtom (AInt 2)).
Proof.
  eexists. split; [vm_compute; reflexivity |].
  eapply (new_dataframe_row_keeps_last
            [("a"%string, VAtom (AInt 1)); ("a"%string, VAtom (AInt 2))] "b"
            (VAtom ANone) _ "a").
  - vm_compute. reflexivity.
  - discriminate.
Defined.

Lemma conv_conv obj : conv (conv obj) = conv obj.
Proof. apply conv_row_free, row_free_conv. Qed.

(** X4: setting a column twice.  Setting the named column in a row that
    [new_dataframe_row] built by setting that column gives, column by
    column, the row obtained by setting it once to the second value; and
    where one of the two ways raises, so does the other. *)
Theorem new_dataframe_row_overwrite (old_row : Row) (column_name : string)
    (v1 v2 : Value) (c : string) :
  (row1 ←r new_dataframe_row old_row column_name v1;
   row2 ←r new_dataframe_row row1 column_name v2;
   Row_getitem row2 c) =
  (row ←r new_dataframe_row old_row column_name v2;
   Row_getitem row c).
Proof.
  rewrite (new_dataframe_row_unfold old_row column_name v1).
  rewrite (new_dataframe_row_unfold old_row column_name v2).
  case_decide as Hself; [done |]. cbn [rbind].
  set (row1 := Row_new (dict_set (asDict old_row) column_name v1)).
  assert (H1 : new_dataframe_row old_row column_name v1 = Ok row1).
  { apply new_dataframe_row_Ok. split; [tauto | done]. }
  assert (H2 : new_dataframe_row row1 column_name v2
               = Ok (Row_new (dict_set (asDict row1) column_name v2))).
  { apply new_dataframe_row_Ok. split; [| done]. split; [tauto |].
    rewrite (new_dataframe_row_keys _ _ _ _ _ H1).
    intros [Heq|Hin]; apply Hself; [by left | by right]. }
  assert (H3 : new_dataframe_row old_row column_name v2
               = Ok (Row_new (dict_set (asDict old_row) column_name v2))).
  { apply new_dataframe_row_Ok. split; [tauto | done]. }
  rewrite H2. cbn [rbind]. unfold Row_getitem.
  rewrite (new_dataframe_row_get _ _ _ _ _ (new_dataframe_row_NoDup _ _ _ _ H1) H2).
  rewrite (new_dataframe_row_get_last _ _ _ _ _ H1).
  rewrite (new_dataframe_row_get_last _ _ _ _ _ H3).
  case_decide; [done |].
  destruct (dict_get (reverse old_row) c); simpl; [| done]. by rewrite conv_conv.
Qed.
End RowExtras.

Module ServiceExtras.
Import EASGD CoordinatorFacts.

Section Facts.
Context {F Model : Type} `{Keras F Model}.
Local Abbreviation t := (t F Model).
Implicit Types (self : t) (data : UpdateData F) (subs : list (UpdateData F))
  (reqs : list (Request F)).

Lemma submit_all_cons self data subs :
  submit_all self (data :: subs) = submit_all (easgd_service.update self data).1 subs.
Proof. reflexivity. Qed.

Lemma submit_all_model self subs : model (submit_all self subs) = model self.
Proof.
  revert self. induction subs as [|data subs IH]; intros self; [done |].
  by rewrite submit_all_cons, IH, update_model.
Qed.

Lemma submit_all_num_workers self subs :
  num_workers (submit_all self subs) = num_workers self.
Proof.
  revert self. induction subs as [|data subs IH]; intros self; [done |].
  by rewrite submit_all_cons, IH, update_num_workers.
Qed.

Lemma update_size_bound self data :
  (1 ≤ num_workers self)%Z →
  (Z.of_nat (size (gradients self)) < num_workers self)%Z →
  (Z.of_nat (size (gradients (easgd_service.update self data).1)) < num_workers self)%Z.
Proof.
  intros HN Hlt. rewrite update_unfold.
  pose proof (size_insert_le (gradients self) (worker_id data) (gradient data)) as Hle.
  destruct (decide (completes self data)) as [Hfull|Hopen]; simpl.
  - rewrite map_size_empty. lia.
  - unfold completes in Hopen. simpl in Hopen. lia.
Qed.

(** X5: the bound on the pending map.  With at least one worker, a service
    that holds fewer pending gradients than there are workers still does
    after any sequence of requests. *)
Theorem pending_size_bound self reqs :
  (1 ≤ num_workers self)%Z →
  (Z.of_nat (size (gradients self)) < num_workers self)%Z →
  (Z.of_nat (size (gradients (run self reqs).1)) < num_workers self)%Z.
Proof.
  intros HN. rewrite run_state. generalize (submissions reqs). intros subs.
  revert self HN. induction subs as [|data subs IH]; intros self HN Hlt; [done |].
  rewrite submit_all_cons. rewrite <-(update_num_workers self data).
  apply IH; rewrite update_num_workers; [done |]. by apply update_size_bound.
Qed.

Lemma update_ready_empty self data :
  ready (easgd_service.update self data).1 = true →
  gradients (easgd_service.update self data).1 = ∅.
Proof. rewrite update_unfold. by case_decide. Qed.

(** X6: ready only between windows.  If the ready flag is up only when no
    gradient is pending, this is still so after any sequence of requests;
    it is so in the state that [reset] leaves. *)
Theorem ready_means_no_pending self reqs :
  (ready self = true → gradients self = ∅) →
  ready (run self reqs).1 = true → gradients (run self reqs).1 = ∅.
Proof.
  rewrite run_state. generalize (submissions reqs). intros subs.
  revert self. induction subs as [|data subs IH]; intros self Hinv; [done |].
  rewrite submit_all_cons. apply IH, update_ready_empty.
Qed.

Lemma update_iteration self data :
  iteration (easgd_service.update self data).1 =
    (iteration self + Z.of_nat (length (aggregated self [data])))%Z ∧
  length (stdout (easgd_service.update self data).1) =
    length (stdout self) + length (aggregated self [data]).
Proof.
  rewrite update_unfold. simpl.
  destruct (decide (completes self data)); simpl.
  - rewrite length_app. simpl. split; lia.
  - split; lia.
Qed.

Lemma aggregated_cons self data subs :
  aggregated self (data :: subs) =
  aggregated self [data] ++ aggregated (easgd_service.update self data).1 subs.
Proof. simpl. by rewrite app_nil_r. Qed.

Lemma aggregated_length_le self subs : length (aggregated self subs) ≤ length subs.
Proof.
  revert self. induction subs as [|data subs IH]; intros self; [done |].
  rewrite aggregated_cons, length_app. specialize (IH (easgd_service.update self data).1).
  simpl. destruct (decide (completes self data)); simpl; lia.
Qed.

Lemma submit_all_iteration self subs :
  iteration (submit_all self subs) =
    (iteration self + Z.of_nat (length (aggregated self subs)))%Z ∧
  length (stdout (submit_all self subs)) =
    length (stdout self) + length (aggregated self subs).
Proof.
  revert self. induction subs as [|data subs IH]; intros self.
  - simpl. split; lia.
  - rewrite submit_all_cons, aggregated_cons, length_app.
    destruct (IH (easgd_service.update self data).1) as [-> ->].
    destruct (update_iteration self data) as [-> ->]. split; lia.
Qed.

(** X7: the iteration counter.  Over any sequence of requests the counter
    grows by the number of times [process_gradients] was called, which is
    also the number of lines printed and is at most the number of
    submissions; it never goes down. *)
Theorem iteration_counts_aggregations self reqs :
  let self' := (run self reqs).1 in
  let k := length (aggregated self (submissions reqs)) in
  iteration self' = (iteration self + Z.of_nat k)%Z ∧
  length (stdout self') = length (stdout self) + k ∧
  k ≤ length (submissions reqs).
Proof.
  intros self' k. unfold self'. rewrite run_state.
  destruct (submit_all_iteration self (submissions reqs)) as [Hi Ho].
  split_and!; [done | done | apply aggregated_length_le].
Qed.

(** X8: a trainer without workers.  When [num_workers] is zero or
    negative no submission ever completes a window: after any requests
    with at least one submission among them the ready flag is down, the
    counter is where it was and every gradient submitted is still
    pending. *)
Theorem no_worker_never_ready self reqs :
  (num_workers self ≤ 0)%Z →
  submissions reqs ≠ [] →
  let self' := (run self reqs).1 in
  ready self' = false ∧ iteration self' = iteration self ∧
  gradients self' = store (gradients self) (submissions reqs).
Proof.
  intros HN Hne self'. unfold self'. rewrite run_state.
  generalize dependent (submissions reqs). intros subs Hne.
  assert (Hgen : ∀ subs self, (num_workers self ≤ 0)%Z →
            gradients (submit_all self subs) = store (gradients self) subs ∧
            iteration (submit_all self subs) = iteration self ∧
            (subs ≠ [] → ready (submit_all self subs) = false)).
  { clear. intros subs. induction subs as [|data subs IH]; intros self HN; [done |].
    rewrite submit_all_cons.
    assert (Hopen : ¬ completes self data).
    { unfold completes. simpl.
      assert (size (<[worker_id data := gradient data]> (gradients self)) ≠ 0); [| lia].
      rewrite map_size_empty_iff. apply insert_non_empty. }
    rewrite (update_open _ _ Hopen).
    destruct (IH (at_check self data) HN) as (Hg & Hi & Hr). split_and!; [done | done |].
    intros _. destruct subs as [|data' subs]; [done |]. by apply Hr. }
  destruct (Hgen subs self HN) as (? & ? & ?). split_and!; auto.
Qed.

Lemma first_aggregation_gen subs self :
  (1 ≤ num_workers self)%Z →
  (Z.of_nat (size (gradients self)) < num_workers self)%Z →
  iteration (submit_all self subs) = iteration self ↔
  (Z.of_nat (size (dom (gradients self) ∪ list_to_set (worker_id <$> subs) : gset Z))
   < num_workers self)%Z.
Proof.
  revert self. induction subs as [|data subs IH]; intros self HN Hlt.
  - simpl. rewrite (right_id_L ∅ (∪)), size_dom. done.
  - rewrite submit_all_cons, fmap_cons. simpl.
    pose proof (size_insert_le (gradients self) (worker_id data) (gradient data)) as Hle.
    destruct (decide (completes self data)) as [Hfull|Hopen].
    + destruct (update_completes self data Hfull) as (_ & Hi & _).
      destruct (submit_all_iteration (easgd_service.update self data).1 subs) as [Hk _].
      unfold completes in Hfull. simpl in Hfull.
      assert (Hsub : size (<[worker_id data := gradient data]> (gradients self))
                     ≤ size (dom (gradients self)
                             ∪ ({[worker_id data]} ∪ list_to_set (worker_id <$> subs))
                             : gset Z)).
      { rewrite <-size_dom. apply subseteq_size. rewrite dom_insert. set_solver. }
      split; intros; exfalso; lia.
    + rewrite (update_open _ _ Hopen).
      unfold completes in Hopen. simpl in Hopen.
      rewrite (IH (at_check self data)); simpl; [| done | lia].
      rewrite dom_insert_L.
      replace ({[worker_id data]} ∪ dom (gradients self)
               ∪ list_to_set (worker_id <$> subs))
        with (dom (gradients self)
              ∪ ({[worker_id data]} ∪ list_to_set (worker_id <$> subs)) : gset Z)
        by set_solver.
      done.
Qed.

(** X9: when a window completes.  From a state with no pending gradient
    and at least one worker, the counter has moved after a sequence of
    requests exactly when the submissions among them came from at least
    [num_workers] different worker ids: a repeated id does not count, and an
    id outside [0, num_workers) counts like any other. *)
Theorem first_aggregation_on_distinct_ids self reqs :
  (1 ≤ num_workers self)%Z → gradients self = ∅ →
  iteration (run self reqs).1 = iteration self ↔
  (Z.of_nat (size (list_to_set (worker_id <$> submissions reqs) : gset Z))
   < num_workers self)%Z.
Proof.
  intros HN Hempty. rewrite run_state, first_aggregation_gen.
  - by rewrite Hempty, dom_empty_L, (left_id_L ∅ (∪)).
  - done.
  - rewrite Hempty, map_size_empty. lia.
Qed.

(** X10: round after round.  From a state with no pending gradient, after
    any number of rounds in each of which every worker id of
    [0, num_workers) submits once, the counter has grown by the number of
    rounds, no gradient is pending, and the ready flag is up if there was a
    round at all. *)
Theorem rounds_advance_iteration self (rounds : list (list (UpdateData F))) :
  (1 ≤ num_workers self)%Z → gradients self = ∅ →
  Forall (λ round, worker_id <$> round ≡ₚ seqZ 0 (num_workers self)) rounds →
  let self' := (run self (SubmitGradient <$> concat rounds)).1 in
  gradients self' = ∅ ∧
  iteration self' = (iteration self + Z.of_nat (length rounds))%Z ∧
  (rounds ≠ [] → ready self' = true).
Proof.
  intros HN Hempty Hrounds self'. unfold self'. rewrite run_submit_all. clear self'.
  revert self HN Hempty Hrounds.
  induction rounds as [|round rounds IH]; intros self HN Hempty Hrounds.
  - simpl. split_and!; [done | lia | done].
  - apply Forall_cons in Hrounds as [Hperm Hrounds].
    simpl. rewrite submit_all_app.
    assert (Hlen : length round = Z.to_nat (num_workers self)).
    { rewrite <-(length_fmap worker_id), Hperm. apply length_seqZ. }
    destruct (submit_all_distinct self round) as (Hg & Hi & Hr); [done | | | lia |].
    { intros ->. simpl in Hlen. lia. }
    { rewrite Hperm. apply NoDup_seqZ. }
    set (mid := submit_all self round) in *.
    assert (Hn : num_workers mid = num_workers self) by apply submit_all_num_workers.
    destruct (IH mid) as (Hg' & Hi' & Hr'); [lia | done | by rewrite Hn |].
    split_and!; [done | lia |].
    intros _. destruct rounds as [|round' rounds]; [done |]. by apply Hr'.
Qed.
End Facts.

Section FromInit.
Context {F Model : Type} `{Keras F Model}.
Implicit Types (self : t F Model) (reqs : list (Request F)).

(** X11: the center variable never moves.  Whatever requests the service
    of a trainer serves one after the other, every request for the center
    variable among them is answered with the weights that the model of the
    trainer had before the first of them. *)
Theorem center_variable_is_initial_weights self reqs (i : nat) :
  reqs !! i = Some GetCenterVariable →
  (run self reqs).2 !! i = Some (CenterVariable (get_weights (model self))).
Proof.
  intros Hreq. rewrite (run_lookup _ _ _ _ Hreq). simpl. rewrite run_state.
  unfold easgd_service.center_variable. cbv zeta.
  by rewrite submit_all_model.
Qed.

Lemma Lock_unbound : "Lock"%string ∉ module_names.
Proof. apply (bool_decide_unpack _). vm_compute. exact I. Qed.

(** X12: no trainer is built.  [EASGD.__init__] raises [NameError] for
    every model and every argument: after the master model is serialized
    and the arguments are stored it evaluates [Lock], a name that the
    module neither imports nor defines, and [reset] is not reached. *)
Theorem EASGD_init_raises_NameError (keras_model : Model)
    (features_col label_col : string) (n : Z) :
  init keras_model features_col label_col n = Raise NameError.
Proof.
  unfold init, global_name. cbv zeta.
  rewrite decide_False by apply Lock_unbound. done.
Qed.
End FromInit.

Lemma center_variable_is_initial_weights_witness :
  (run (Toy.trainer [3; 4]%Z 2)
     [SubmitGradient (Toy.submission 0 [1; 1]%Z);
      SubmitGradient (Toy.submission 1 [2; 2]%Z);
      GetCenterVariable]).2 !! 2
  = Some (CenterVariable [[3; 4]%Z]).
Proof.
  apply (@center_variable_is_initial_weights Z Toy.Model Toy.toy_keras
           (Toy.trainer [3; 4]%Z 2)
           [SubmitGradient (Toy.submission 0 [1; 1]%Z);
            SubmitGradient (Toy.submission 1 [2; 2]%Z);
            GetCenterVariable] 2).
  reflexivity.
Defined.

Lemma pending_size_bound_witness :
  let self := Toy.trainer [1%Z] 2 in
  (Z.of_nat (size (gradients
     (run self [SubmitGradient (Toy.submission 0 [1%Z]);
                SubmitGradient (Toy.submission 0 [2%Z]);
                SubmitGradient (Toy.submission 5 [3%Z]);
                SubmitGradient (Toy.submission 1 [4%Z])]).1)) < 2)%Z.
Proof.
  intros self. apply (pending_size_bound self); [vm_compute; discriminate | reflexivity].
Defined.

Lemma ready_means_no_pending_witness :
  let self := Toy.trainer [1%Z] 2 in
  let reqs := [SubmitGradient (Toy.submission 0 [1%Z]);
               SubmitGradient (Toy.submission 1 [2%Z])] in
  gradients (run self reqs).1 = ∅.
Proof.
  intros self reqs. apply (ready_means_no_pending self reqs); [discriminate |].
  vm_compute. reflexivity.
Defined.

Lemma no_worker_never_ready_witness :
  let self := Toy.trainer [1%Z] 0 in
  let reqs := [SubmitGradient (Toy.submission 0 [1%Z]); IsReady] in
  ready (run self reqs).1 = false ∧ iteration (run self reqs).1 = 0%Z ∧
  gradients (run self reqs).1 = {[ 0%Z := [[1%Z]] ]}.
Proof.
  intros self reqs.
  destruct (no_worker_never_ready self reqs) as (Hr & Hi & Hg);
    [vm_compute; discriminate | discriminate |].
  split_and!; [exact Hr | exact Hi |]. etrans; [exact Hg | vm_compute; reflexivity].
Defined.

Lemma first_aggregation_on_distinct_ids_witness :
  let self := Toy.trainer [1%Z] 2 in
  iteration (run self [SubmitGradient (Toy.submission 0 [1%Z]);
                       SubmitGradient (Toy.submission 0 [2%Z]);
                       SubmitGradient (Toy.submission 0 [3%Z])]).1 = 0%Z ∧
  iteration (run self [SubmitGradient (Toy.submission 0 [1%Z]);
                       SubmitGradient (Toy.submission 7 [2%Z])]).1 ≠ 0%Z.
Proof.
  intros self. split.
  - apply (first_aggregation_on_distinct_ids self); [vm_compute; discriminate | reflexivity |].
    vm_compute. reflexivity.
  - intros Heq.
    apply (first_aggregation_on_distinct_ids self) in Heq;
      [| vm_compute; discriminate | reflexivity].
    vm_compute in Heq. discriminate.
Defined.

Lemma rounds_advance_iteration_witness :
  let self := Toy.trainer [1%Z] 2 in
  let round1 := [Toy.submission 0 [1%Z]; Toy.submission 1 [2%Z]] in
  let round2 := [Toy.submission 1 [3%Z]; Toy.submission 0 [4%Z]] in
  iteration (run self (SubmitGradient <$> concat [round1; round2])).1 = 2%Z.
Proof.
  intros self round1 round2.
  destruct (rounds_advance_iteration self [round1; round2]) as (_ & Hi & _).
  - vm_compute. discriminate.
  - reflexivity.
  - repeat constructor.
  - exact Hi.
Defined.
End ServiceExtras.

Module ToyObjectsFacts.
Import Labels ToyObjects.

#[global] Instance toy_objects_laws : ObjectsLaws Z.
Proof.
  split.
  - done.
  - intros l i. simpl. rewrite decide_True by lia.
    rewrite Nat2Z.id, list_lookup_fmap. by destruct (l !! i).
Qed.
End ToyObjectsFacts.

Module LabelExtras.
Import Labels.

Section Vectors.
Context {F : Type} `{PyFloat F} `{Objects F} {olaws : ObjectsLaws F}.

Lemma to_vector_int (x n_dim : Z) :
  to_vector (VAtom (AInt x)) n_dim =
  (vector ←t zeros n_dim; setitem_at vector x f_one).
Proof.
  unfold to_vector. destruct (zeros n_dim) as [vector|e]; simpl; [| done].
  rewrite as_index_int. simpl. by destruct (setitem_at vector x f_one).
Qed.

Lemma to_vector_in_range (x n_dim : Z) :
  (0 ≤ x < n_dim)%Z →
  to_vector (VAtom (AInt x)) n_dim =
  Got (<[Z.to_nat x := f_one]> (replicate (Z.to_nat n_dim) f_zero)).
Proof.
  intros Hx. rewrite to_vector_int. unfold zeros, setitem_at.
  rewrite decide_False by lia. simpl. rewrite length_replicate.
  by rewrite decide_True by lia.
Qed.

(** X13: one-hot vectors.  For an integer label [x] with
    [0 ≤ x < n_dim], [to_vector] returns a vector of [n_dim] entries that
    is 1.0 at [x] and 0.0 everywhere else. *)
Theorem to_vector_one_hot (x n_dim : Z) :
  (0 ≤ x < n_dim)%Z →
  ∃ vector, to_vector (VAtom (AInt x)) n_dim = Got vector ∧
    length vector = Z.to_nat n_dim ∧
    vector !! Z.to_nat x = Some f_one ∧
    ∀ i, i ≠ Z.to_nat x → i < Z.to_nat n_dim → vector !! i = Some f_zero.
Proof.
  intros Hx. rewrite to_vector_in_range by done. eexists. split; [done |]. split_and!.
  - by rewrite length_insert, length_replicate.
  - apply list_lookup_insert_eq. rewrite length_replicate. lia.
  - intros i Hne Hi. rewrite list_lookup_insert_ne by done.
    by apply lookup_replicate_2.
Qed.

(** X14: a negative label counts from the end.  For [- n_dim ≤ x < 0],
    [to_vector] raises nothing and returns the one-hot vector of
    [n_dim + x]: the label -1 is read as the last class. *)
Theorem to_vector_negative_wraps (x n_dim : Z) :
  (- n_dim ≤ x < 0)%Z →
  to_vector (VAtom (AInt x)) n_dim = to_vector (VAtom (AInt (n_dim + x))) n_dim ∧
  ∃ vector, to_vector (VAtom (AInt x)) n_dim = Got vector ∧
            vector !! Z.to_nat (n_dim + x) = Some f_one.
Proof.
  intros Hx. rewrite !to_vector_int. unfold zeros, setitem_at.
  rewrite decide_False by lia. simpl. rewrite length_replicate.
  rewrite (decide_False (P := (0 ≤ x < _)%Z)) by lia.
  rewrite (decide_True (P := (- _ ≤ x < 0)%Z)) by lia.
  rewrite (decide_True (P := (0 ≤ n_dim + x < _)%Z)) by lia.
  rewrite Z2Nat.id by lia. split; [done |]. eexists. split; [done |].
  apply list_lookup_insert_eq. rewrite length_replicate. lia.
Qed.

(** X15: labels out of range.  For a dimension that is not negative, a label
    of [n_dim] or more, or below [- n_dim], makes [to_vector] raise
    [IndexError]; so does every label when [n_dim] is 0.  A negative
    dimension raises [ValueError]. *)
Theorem to_vector_out_of_range (x n_dim : Z) :
  ((0 ≤ n_dim)%Z → (x < - n_dim ∨ n_dim ≤ x)%Z →
   to_vector (VAtom (AInt x)) n_dim = Raised IndexError) ∧
  ((n_dim < 0)%Z → to_vector (VAtom (AInt x)) n_dim = Raised (Builtin ValueError)).
Proof.
  rewrite to_vector_int. unfold zeros, setitem_at. split.
  - intros Hn Hx. rewrite decide_False by lia. simpl. rewrite length_replicate.
    rewrite !decide_False by lia. done.
  - intros Hn. by rewrite decide_True.
Qed.
End Vectors.

Section GetIndex.
Context {F : Type} `{PyFloat F} `{Objects F} {olaws : ObjectsLaws F}.
Implicit Types (self : LabelIndexTransformer F) (l : list F).

Lemma get_index_in_step self l (a k : nat) :
  get_index_in self (DenseVector l) (seqZ (Z.of_nat a) (Z.of_nat (S k))) =
  match l !! a with
  | Some x =>
      if f_ge x (activation_threshold self) then Got (Z.of_nat a)
      else get_index_in self (DenseVector l) (seqZ (Z.of_nat (S a)) (Z.of_nat k))
  | None => Raised IndexError
  end.
Proof.
  rewrite seqZ_cons by lia. simpl. rewrite item_DenseVector.
  replace (Z.succ (Z.of_nat a)) with (Z.of_nat (S a)) by lia.
  replace (Z.pred (Z.of_nat (S k))) with (Z.of_nat k) by lia.
  by destruct (l !! a).
Qed.

Lemma get_index_in_hit self l (k a i : nat) x :
  a ≤ i < a + k → l !! i = Some x → f_ge x (activation_threshold self) = true →
  (∀ j y, a ≤ j < i → l !! j = Some y → f_ge y (activation_threshold self) = false) →
  get_index_in self (DenseVector l) (seqZ (Z.of_nat a) (Z.of_nat k)) = Got (Z.of_nat i).
Proof.
  revert a. induction k as [|k IH]; intros a Hi Hx Hge Hbelow; [lia |].
  rewrite get_index_in_step.
  destruct (decide (a = i)) as [->|Hne].
  - by rewrite Hx, Hge.
  - destruct (lookup_lt_is_Some_2 l a) as [y Hy].
    { apply lookup_lt_Some in Hx. lia. }
    rewrite Hy, (Hbelow a y) by (done || lia).
    apply IH; [lia | done | done |]. intros j z Hj. apply Hbelow. lia.
Qed.

Lemma get_index_in_default self l (k a : nat) :
  (∀ j, a ≤ j < a + k →
        ∃ y, l !! j = Some y ∧ f_ge y (activation_threshold self) = false) →
  get_index_in self (DenseVector l) (seqZ (Z.of_nat a) (Z.of_nat k))
    = Got (default_index self).
Proof.
  revert a. induction k as [|k IH]; intros a Hbelow.
  - by rewrite seqZ_nil.
  - rewrite get_index_in_step. destruct (Hbelow a) as (y & -> & ->); [lia |].
    apply IH. intros j Hj. apply Hbelow. lia.
Qed.

Lemma get_index_in_short self l (k a : nat) :
  a ≤ length l < a + k →
  (∀ j y, a ≤ j → l !! j = Some y → f_ge y (activation_threshold self) = false) →
  get_index_in self (DenseVector l) (seqZ (Z.of_nat a) (Z.of_nat k)) = Raised IndexError.
Proof.
  revert a. induction k as [|k IH]; intros a Hlen Hbelow; [lia |].
  rewrite get_index_in_step. destruct (l !! a) as [y|] eqn:Hy; [| done].
  rewrite (Hbelow a y) by done. apply lookup_lt_Some in Hy.
  apply IH; [lia |]. intros j z Hj. apply Hbelow. lia.
Qed.

Lemma get_index_range self l :
  (0 ≤ output_dim self)%Z →
  get_index self (DenseVector l) =
  get_index_in self (DenseVector l)
    (seqZ (Z.of_nat 0) (Z.of_nat (Z.to_nat (output_dim self)))).
Proof. intros Hn. unfold get_index. by rewrite Z2Nat.id. Qed.

(** X16: the index of a prediction.  [get_index] returns the first index
    below [output_dim] at which the vector reaches the activation
    threshold. *)
Theorem get_index_first_activated self l (i : nat) x :
  (Z.of_nat i < output_dim self)%Z →
  l !! i = Some x → f_ge x (activation_threshold self) = true →
  (∀ j y, j < i → l !! j = Some y → f_ge y (activation_threshold self) = false) →
  get_index self (DenseVector l) = Got (Z.of_nat i).
Proof.
  intros Hi Hx Hge Hbelow. rewrite get_index_range by lia.
  apply (get_index_in_hit self l _ 0 i x); [lia | done | done |].
  intros j y Hj. apply Hbelow. lia.
Qed.

(** X17: the default index.  When the vector has an entry at every index
    below [output_dim] and none of them reaches the threshold, [get_index]
    returns [default_index]; it does so for every vector when [output_dim]
    is zero or negative. *)
Theorem get_index_default self l :
  (∀ j, (Z.of_nat j < output_dim self)%Z →
        ∃ y, l !! j = Some y ∧ f_ge y (activation_threshold self) = false) →
  get_index self (DenseVector l) = Got (default_index self).
Proof.
  intros Hbelow. destruct (decide (0 ≤ output_dim self)%Z) as [Hn|Hn].
  - rewrite get_index_range by done. apply get_index_in_default.
    intros j Hj. apply Hbelow. lia.
  - unfold get_index. rewrite seqZ_nil by lia. done.
Qed.

(** X18: a vector that is too short.  When the vector has fewer than
    [output_dim] entries and none of them reaches the threshold,
    [get_index] raises [IndexError] instead of returning the default
    index. *)
Theorem get_index_short_vector self l :
  (Z.of_nat (length l) < output_dim self)%Z →
  (∀ j y, l !! j = Some y → f_ge y (activation_threshold self) = false) →
  get_index self (DenseVector l) = Raised IndexError.
Proof.
  intros Hlen Hbelow. rewrite get_index_range by lia.
  apply get_index_in_short; [lia |]. intros j y _. apply Hbelow.
Qed.
End GetIndex.

Section Loops.
Context {F Model : Type} `{PyFloat F} `{Objects F} `{Keras F Model}
  `{KerasPredict F Model} {olaws : ObjectsLaws F}.

Lemma try_for_all (catch : error) (f : Row → try Row) (iterator out rows : list Row) :
  Forall2 (λ row new_row, f row = Got new_row) iterator out →
  try_for catch f iterator rows = Got (rows ++ out).
Proof.
  intros Hall. revert rows.
  induction Hall as [|row new_row iterator out Hrow _ IH]; intros rows; simpl.
  - by rewrite app_nil_r.
  - rewrite Hrow, IH. by rewrite <-app_assoc.
Qed.

Lemma try_for_stop (catch : error) (f : Row → try Row) (good out rest rows : list Row)
    (bad : Row) (e : error) :
  Forall2 (λ row new_row, f row = Got new_row) good out →
  f bad = Raised e →
  try_for catch f (good ++ bad :: rest) rows =
  if decide (e = catch) then Got (rows ++ out) else Raised e.
Proof.
  intros Hall Hbad. revert rows.
  induction Hall as [|row new_row good out Hrow _ IH]; intros rows; simpl.
  - rewrite Hbad. by rewrite app_nil_r.
  - rewrite Hrow, IH. by rewrite <-app_assoc.
Qed.

Lemma new_dataframe_row_self (row : Row) (column_name : string) (v : Value) :
  column_name = "self"%string ∨ "self"%string ∈ row.*1 →
  new_dataframe_row row column_name v = Raise TypeError.
Proof.
  intros Hself. rewrite RowFacts.new_dataframe_row_unfold. by rewrite decide_True.
Qed.

(** X19: label vectors for a partition.  When the output column is not
    called [self], no row has a column called [self] and every row has an
    integer label in [0, output_dim) at the input column, [_transform]
    returns one row per row, in order: the row with the one-hot vector of
    its label set at the output column. *)
Theorem label_vectors_of_partition (self : LabelVectorTransformer)
    (iterator : list Row) :
  lv_output_column self ≠ "self"%string →
  Forall (λ row, ("self"%string ∉ row.*1) ∧
                 ∃ z, Row_getitem row (lv_input_column self) = Ok (VAtom (AInt z)) ∧
                      (0 ≤ z < lv_output_dim self)%Z) iterator →
  ∃ out,
    LabelVectorTransformer_transform self iterator = Got out ∧
    Forall2 (λ row new_row,
               ∃ z, Row_getitem row (lv_input_column self) = Ok (VAtom (AInt z)) ∧
                    new_dataframe_row row (lv_output_column self)
                      (DenseVector (<[Z.to_nat z := f_one]>
                         (replicate (Z.to_nat (lv_output_dim self)) f_zero)))
                    = Ok new_row)
            iterator out.
Proof.
  intros Hcol Hall.
  assert (Hout : ∃ out,
    Forall2 (λ row new_row,
               ∃ z, Row_getitem row (lv_input_column self) = Ok (VAtom (AInt z)) ∧
                    (0 ≤ z < lv_output_dim self)%Z ∧
                    new_dataframe_row row (lv_output_column self)
                      (DenseVector (<[Z.to_nat z := f_one]>
                         (replicate (Z.to_nat (lv_output_dim self)) f_zero)))
                    = Ok new_row)
            iterator out).
  { induction Hall as [|row iterator (Hrow & z & Hz & Hr) _ (out & IH)].
    - exists []. constructor.
    - eexists (_ :: out). constructor; [| exact IH]. exists z.
      split; [done |]. split; [done |]. by apply RowFacts.new_dataframe_row_Ok. }
  destruct Hout as (out & Hout). exists out. split.
  - unfold LabelVectorTransformer_transform. rewrite (try_for_all _ _ _ out); [done |].
    eapply Forall2_impl; [exact Hout |]. intros row new_row (z & Hz & Hr & Hnew).
    simpl. rewrite Hz. simpl. rewrite to_vector_in_range by done. simpl.
    by rewrite Hnew.
  - eapply Forall2_impl; [exact Hout |]. intros row new_row (z & Hz & _ & Hnew).
    by exists z.
Qed.

(** X20: what [LabelVectorTransformer] does not catch.  After any rows that
    it transforms, a row that lacks the input column makes [_transform]
    raise [ValueError], and a row whose integer label is out of range makes
    it raise [IndexError]: its [except TypeError] lets both through and the
    rows transformed so far are lost. *)
Theorem label_vectors_raise (self : LabelVectorTransformer)
    (good out rest : list Row) (bad : Row) :
  Forall2 (λ row new_row,
             ∃ label v, Row_getitem row (lv_input_column self) = Ok label ∧
                        to_vector label (lv_output_dim self) = Got v ∧
                        new_dataframe_row row (lv_output_column self) (DenseVector v)
                        = Ok new_row) good out →
  (Row_getitem bad (lv_input_column self) = Raise ValueError →
   LabelVectorTransformer_transform self (good ++ bad :: rest)
     = Raised (Builtin ValueError)) ∧
  (∀ z, Row_getitem bad (lv_input_column self) = Ok (VAtom (AInt z)) →
        (0 ≤ lv_output_dim self)%Z →
        (z < - lv_output_dim self ∨ lv_output_dim self ≤ z)%Z →
        LabelVectorTransformer_transform self (good ++ bad :: rest) = Raised IndexError).
Proof.
  intros Hgood.
  assert (Hstep : Forall2 (λ row new_row,
            (label ←t of_result (Row_getitem row (lv_input_column self));
             v ←t to_vector label (lv_output_dim self);
             new_row ←t of_result
               (new_dataframe_row row (lv_output_column self) (DenseVector v));
             Got new_row)
            = Got new_row) good out).
  { eapply Forall2_impl; [exact Hgood |]. intros row new_row (label & v & Hl & Hv & Hnew).
    rewrite Hl. simpl. rewrite Hv. simpl. by rewrite Hnew. }
  split.
  - intros Hbad. unfold LabelVectorTransformer_transform.
    rewrite (try_for_stop _ _ good out rest [] bad (Builtin ValueError)); [done | done |].
    by rewrite Hbad.
  - intros z Hbad Hdim Hz. unfold LabelVectorTransformer_transform.
    rewrite (try_for_stop _ _ good out rest [] bad IndexError); [done | done |].
    rewrite Hbad. simpl. rewrite to_vector_int. unfold zeros, setitem_at.
    rewrite decide_False by lia. simpl. rewrite length_replicate.
    by rewrite !decide_False by lia.
Qed.

(** X21: what [LabelVectorTransformer] does catch.  After any rows that it
    transforms, a row whose label is encoded and for which the new row
    cannot be built, the output column or one of its own columns being
    called [self], ends the loop without an error: [Row] raises
    [TypeError], the rows transformed so far are returned, and that row
    and all rows after it are dropped. *)
Theorem label_vectors_stop_at_type_error (self : LabelVectorTransformer)
    (good out rest : list Row) (bad : Row) (label : Value) (v : list F) :
  Forall2 (λ row new_row,
             ∃ label v, Row_getitem row (lv_input_column self) = Ok label ∧
                        to_vector label (lv_output_dim self) = Got v ∧
                        new_dataframe_row row (lv_output_column self) (DenseVector v)
                        = Ok new_row) good out →
  Row_getitem bad (lv_input_column self) = Ok label →
  to_vector label (lv_output_dim self) = Got v →
  lv_output_column self = "self"%string ∨ "self"%string ∈ bad.*1 →
  LabelVectorTransformer_transform self (good ++ bad :: rest) = Got out.
Proof.
  intros Hgood Hbad Hlabel Hself. unfold LabelVectorTransformer_transform.
  rewrite (try_for_stop _ _ good out rest [] bad (Builtin TypeError)); [done | |].
  - eapply Forall2_impl; [exact Hgood |]. intros row new_row (l & w & Hl & Hw & Hnew).
    rewrite Hl. simpl. rewrite Hw. simpl. by rewrite Hnew.
  - rewrite Hbad. simpl. rewrite Hlabel. simpl.
    by rewrite new_dataframe_row_self.
Qed.

(** X22: the loop of [LabelIndexTransformer].  It returns the rows it
    transforms, in order.  After any such rows, a row without the input
    column ends the loop without an error, the rows after it being
    dropped; a row whose vector makes [get_index] raise [IndexError] makes
    [_transform] raise it; and a row for which the new row cannot be
    built, the output column or one of its own columns being called
    [self], makes [_transform] raise [TypeError]. *)
Theorem label_indices_stop_or_raise (self : LabelIndexTransformer F)
    (good out rest : list Row) (bad : Row) :
  Forall2 (λ row new_row,
             ∃ vector index, Row_getitem row (input_column self) = Ok vector ∧
                             get_index self vector = Got index ∧
                             new_dataframe_row row (output_column self) (float index)
                             = Ok new_row) good out →
  LabelIndexTransformer_transform self good = Got out ∧
  (Row_getitem bad (input_column self) = Raise ValueError →
   LabelIndexTransformer_transform self (good ++ bad :: rest) = Got out) ∧
  (∀ vector, Row_getitem bad (input_column self) = Ok vector →
             get_index self vector = Raised IndexError →
             LabelIndexTransformer_transform self (good ++ bad :: rest)
               = Raised IndexError) ∧
  (∀ vector index, Row_getitem bad (input_column self) = Ok vector →
                   get_index self vector = Got index →
                   output_column self = "self"%string ∨ "self"%string ∈ bad.*1 →
                   LabelIndexTransformer_transform self (good ++ bad :: rest)
                     = Raised (Builtin TypeError)).
Proof.
  intros Hgood.
  assert (Hstep : Forall2 (λ row new_row,
            (output_vector ←t of_result (Row_getitem row (input_column self));
             index ←t get_index self output_vector;
             new_row ←t of_result
               (new_dataframe_row row (output_column self) (float index));
             Got new_row)
            = Got new_row) good out).
  { eapply Forall2_impl; [exact Hgood |]. intros row new_row (v & i & Hv & Hi & Hnew).
    rewrite Hv. simpl. rewrite Hi. simpl. by rewrite Hnew. }
  unfold LabelIndexTransformer_transform. split_and!.
  - by rewrite (try_for_all _ _ _ out).
  - intros Hbad.
    rewrite (try_for_stop _ _ good out rest [] bad (Builtin ValueError)); [done | done |].
    by rewrite Hbad.
  - intros vector Hbad Hidx.
    rewrite (try_for_stop _ _ good out rest [] bad IndexError); [done | done |].
    rewrite Hbad. simpl. by rewrite Hidx.
  - intros vector index Hbad Hidx Hself.
    rewrite (try_for_stop _ _ good out rest [] bad (Builtin TypeError)); [done | done |].
    rewrite Hbad. simpl. rewrite Hidx. simpl. by rewrite new_dataframe_row_self.
Qed.

(** X23: the loop of [ModelPredictor].  A predictor built from a model
    predicts with a model of the same weights; it returns the rows for
    which it predicts and builds the new row, in order, and after any such
    rows a row without the features column ends the loop without an error:
    the rows after it get no prediction. *)
Theorem predictions_stop_at_missing_features {laws : KerasLaws F Model}
    (keras_model : Model) (features_col output_col : string) :
  let self := ModelPredictor_init keras_model features_col output_col in
  ∃ model,
    deserialize_keras_model (mp_model self) = Ok model ∧
    get_weights model = get_weights keras_model ∧
    ∀ (good out rest : list Row) (bad : Row),
      Forall2 (λ row new_row,
                 ∃ features Y0, Row_getitem row features_col = Ok features ∧
                                predict model features = Got Y0 ∧
                                new_dataframe_row row output_col (DenseVector Y0)
                                = Ok new_row) good out →
      ModelPredictor_predict self good = Got out ∧
      (Row_getitem bad features_col = Raise ValueError →
       ModelPredictor_predict self (good ++ bad :: rest) = Got out).
Proof.
  intros self.
  destruct (model_from_json_to_json keras_model) as (m0 & Hjson & Hshapes).
  destruct (set_weights_shapes m0 (get_weights keras_model)) as (model & Hset); [done |].
  assert (Hd : deserialize_keras_model (mp_model self) = Ok model).
  { unfold deserialize_keras_model, self, ModelPredictor_init, serialize_keras_model.
    simpl. by rewrite Hjson. }
  exists model. split_and!; [done | by apply set_weights_Ok in Hset |].
  intros good out rest bad Hgood.
  assert (Hstep : Forall2 (λ row new_row,
            (features ←t of_result (Row_getitem row (mp_features_column self));
             Y0 ←t predict model features;
             new_row ←t of_result
               (new_dataframe_row row (mp_output_column self) (DenseVector Y0));
             Got new_row)
            = Got new_row) good out).
  { eapply Forall2_impl; [exact Hgood |]. intros row new_row (x & Y0 & Hx & HY & Hnew).
    simpl. rewrite Hx. simpl. rewrite HY. simpl. by rewrite Hnew. }
  unfold ModelPredictor_predict. rewrite Hd. simpl. split.
  - by rewrite (try_for_all _ _ _ out).
  - intros Hbad.
    rewrite (try_for_stop _ _ good out rest [] bad (Builtin ValueError)); [done | done |].
    simpl. by rewrite Hbad.
Qed.
End Loops.

Section Witnesses.
Import ToyObjects ToyObjectsFacts.

Lemma to_vector_one_hot_witness :
  ∃ vector, to_vector (F := Z) (VAtom (AInt 1)) 3 = Got vector ∧
    length vector = Z.to_nat 3 ∧
    vector !! Z.to_nat 1 = Some 1%Z ∧
    ∀ i, i ≠ Z.to_nat 1 → i < Z.to_nat 3 → vector !! i = Some 0%Z.
Proof. apply (@to_vector_one_hot Z Z_float toy_objects _ 1 3). lia. Defined.

Lemma to_vector_negative_wraps_witness :
  to_vector (F := Z) (VAtom (AInt (-1))) 3 = to_vector (VAtom (AInt (3 + -1))) 3 ∧
  ∃ vector, to_vector (F := Z) (VAtom (AInt (-1))) 3 = Got vector ∧
            vector !! Z.to_nat (3 + -1) = Some 1%Z.
Proof. apply (@to_vector_negative_wraps Z Z_float toy_objects _ (-1) 3). lia. Defined.

Lemma to_vector_out_of_range_witness :
  to_vector (F := Z) (VAtom (AInt 3)) 3 = Raised IndexError ∧
  to_vector (F := Z) (VAtom (AInt (-4))) 3 = Raised IndexError ∧
  to_vector (F := Z) (VAtom (AInt 0)) 0 = Raised IndexError ∧
  to_vector (F := Z) (VAtom (AInt 0)) (-1) = Raised (Builtin ValueError).
Proof.
  split_and!.
  - apply (proj1 (@to_vector_out_of_range Z Z_float toy_objects _ 3 3)); lia.
  - apply (proj1 (@to_vector_out_of_range Z Z_float toy_objects _ (-4) 3)); lia.
  - apply (proj1 (@to_vector_out_of_range Z Z_float toy_objects _ 0 0)); lia.
  - apply (proj2 (@to_vector_out_of_range Z Z_float toy_objects _ 0 (-1))). lia.
Defined.

Lemma get_index_first_activated_witness :
  get_index label_indices (DenseVector [1; 7; 9]%Z) = Got (Z.of_nat 1).
Proof.
  apply (get_index_first_activated label_indices [1; 7; 9]%Z 1 7%Z).
  - simpl. lia.
  - reflexivity.
  - reflexivity.
  - intros [|j] y Hj; [| lia]. simpl. by intros [= <-].
Defined.

Lemma get_index_default_witness :
  get_index label_indices (DenseVector [1; 2; 3]%Z) = Got 0%Z.
Proof.
  apply (get_index_default label_indices [1; 2; 3]%Z).
  intros j Hj. simpl in Hj. destruct j as [|[|[|j]]]; [by eexists.. | lia].
Defined.

Lemma get_index_short_vector_witness :
  get_index label_indices (DenseVector [1; 2]%Z) = Raised IndexError.
Proof.
  apply (get_index_short_vector label_indices [1; 2]%Z).
  - simpl. lia.
  - intros [|[|j]] y; simpl; intros Hy; by simplify_eq.
Defined.

Lemma label_vectors_of_partition_witness :
  ∃ out,
    LabelVectorTransformer_transform (F := Z) label_vectors Toy.rows = Got out ∧
    length out = 2.
Proof.
  destruct (label_vectors_of_partition (F := Z) label_vectors Toy.rows)
    as (out & Hout & Hrows).
  - discriminate.
  - apply Forall_cons. split.
    { split; [apply (bool_decide_unpack _); vm_compute; exact I |].
      exists 0%Z. split; [reflexivity | simpl; lia]. }
    apply Forall_cons. split.
    { split; [apply (bool_decide_unpack _); vm_compute; exact I |].
      exists 1%Z. split; [reflexivity | simpl; lia]. }
    apply Forall_nil. done.
  - exists out. split; [exact Hout |]. by apply Forall2_length in Hrows.
Defined.

Lemma label_vectors_raise_witness :
  let good := [labelled (VAtom (AInt 0))] in
  let rest := [labelled (VAtom (AInt 1))] in
  LabelVectorTransformer_transform (F := Z) label_vectors (good ++ unlabelled :: rest)
    = Raised (Builtin ValueError) ∧
  LabelVectorTransformer_transform (F := Z) label_vectors
    (good ++ labelled (VAtom (AInt 3)) :: rest) = Raised IndexError.
Proof.
  intros good rest.
  assert (Hgood : ∃ out, Forall2 (λ row new_row,
             ∃ label v, Row_getitem row (lv_input_column label_vectors) = Ok label ∧
                        to_vector (F := Z) label (lv_output_dim label_vectors) = Got v ∧
                        new_dataframe_row row (lv_output_column label_vectors)
                          (DenseVector v) = Ok new_row) good out).
  { eexists [_]. constructor; [| constructor].
    exists (VAtom (AInt 0)), [1; 0; 0]%Z.
    split; [reflexivity |]. split; [reflexivity |]. vm_compute. reflexivity. }
  destruct Hgood as (out & Hgood). split.
  - apply (proj1 (label_vectors_raise (F := Z) label_vectors good out rest unlabelled
                    Hgood)).
    reflexivity.
  - apply (proj2 (label_vectors_raise (F := Z) label_vectors good out rest
                    (labelled (VAtom (AInt 3))) Hgood) 3%Z).
    + reflexivity.
    + simpl. lia.
    + simpl. lia.
Defined.

Lemma label_vectors_stop_at_type_error_witness :
  ∃ out,
    LabelVectorTransformer_transform (F := Z) label_vectors
      ([labelled (VAtom (AInt 0))] ++ selfish :: [labelled (VAtom (AInt 1))])
    = Got out ∧
    length out = 1.
Proof.
  eexists. split.
  - eapply (label_vectors_stop_at_type_error (F := Z) label_vectors
              [labelled (VAtom (AInt 0))] _ [labelled (VAtom (AInt 1))]
              selfish (VAtom (AInt 1)) [0; 1; 0]%Z).
    + constructor; [| constructor].
      exists (VAtom (AInt 0)), [1; 0; 0]%Z.
      split; [reflexivity |]. split; [reflexivity |]. vm_compute. reflexivity.
    + reflexivity.
    + reflexivity.
    + right. apply (bool_decide_unpack _). vm_compute. exact I.
  - reflexivity.
Defined.

Lemma label_indices_stop_or_raise_witness :
  let good := [prediction [1; 7; 9]%Z] in
  let rest := [prediction [8; 0; 0]%Z] in
  ∃ out,
    length out = 1 ∧
    LabelIndexTransformer_transform label_indices good = Got out ∧
    LabelIndexTransformer_transform label_indices (good ++ unlabelled :: rest) = Got out ∧
    LabelIndexTransformer_transform label_indices (good ++ prediction [1; 2]%Z :: rest)
      = Raised IndexError ∧
    LabelIndexTransformer_transform label_indices
      (good ++ (("self"%string, VAtom ANone) :: prediction [1; 7; 9]%Z) :: rest)
      = Raised (Builtin TypeError).
Proof.
  intros good rest.
  assert (Hgood : ∃ out, Forall2 (λ row new_row,
             ∃ vector index, Row_getitem row (input_column label_indices) = Ok vector ∧
                             get_index label_indices vector = Got index ∧
                             new_dataframe_row row (output_column label_indices)
                               (float index) = Ok new_row) good out).
  { eexists [_]. constructor; [| constructor].
    exists (DenseVector [1; 7; 9]%Z), 1%Z.
    split; [reflexivity |]. split; [reflexivity |]. vm_compute. reflexivity. }
  destruct Hgood as (out & Hgood). exists out. split_and!.
  - by apply Forall2_length in Hgood.
  - apply (proj1 (label_indices_stop_or_raise label_indices good out rest unlabelled
                    Hgood)).
  - apply (proj1 (proj2 (label_indices_stop_or_raise label_indices good out rest
                           unlabelled Hgood))).
    reflexivity.
  - apply (proj1 (proj2 (proj2 (label_indices_stop_or_raise label_indices good out rest
                                  (prediction [1; 2]%Z) Hgood)))
             (DenseVector [1; 2]%Z)); reflexivity.
  - apply (proj2 (proj2 (proj2 (label_indices_stop_or_raise label_indices good out rest
                                  (("self"%string, VAtom ANone) :: prediction [1; 7; 9]%Z)
                                  Hgood)))
             (DenseVector [1; 7; 9]%Z) 1%Z); [reflexivity | reflexivity |].
    right. apply (bool_decide_unpack _). vm_compute. exact I.
Defined.

Lemma predictions_stop_at_missing_features_witness :
  let self := ModelPredictor_init (F := Z) ([3; 1; 4]%Z : Toy.Model)
                "features" "prediction" in
  ∃ out, ModelPredictor_predict self Toy.rows = Got out ∧
         ModelPredictor_predict self (Toy.rows ++ featureless :: Toy.rows) = Got out ∧
         length out = 2.
Proof.
  intros self.
  destruct (predictions_stop_at_missing_features (laws := ToyFacts.toy_laws)
              ([3; 1; 4]%Z : Toy.Model) "features" "prediction")
    as (model & _ & _ & Hloop).
  assert (Hgood : ∃ out, Forall2 (λ row new_row,
             ∃ features Y0, Row_getitem row "features" = Ok features ∧
                            predict model features = Got Y0 ∧
                            new_dataframe_row row "prediction" (DenseVector Y0)
                            = Ok new_row) Toy.rows out).
  { eexists [_; _]. constructor; [| constructor; [| constructor]].
    - eexists _, model. split; [reflexivity |]. split; [reflexivity |].
      apply RowFacts.new_dataframe_row_Ok. split; [| reflexivity].
      split; [discriminate | apply (bool_decide_unpack _); vm_compute; exact I].
    - eexists _, model. split; [reflexivity |]. split; [reflexivity |].
      apply RowFacts.new_dataframe_row_Ok. split; [| reflexivity].
      split; [discriminate | apply (bool_decide_unpack _); vm_compute; exact I]. }
  destruct Hgood as (out & Hgood).
  destruct (Hloop Toy.rows out Toy.rows featureless Hgood) as [Hall Hstop].
  exists out. split; [exact Hall |]. split; [apply Hstop; reflexivity |].
  by apply Forall2_length in Hgood.
Defined.
End Witnesses.
End LabelExtras.

Module WorkerExtras.
Import EASGD Transport EASGDWorker WorkerFacts Service.

Section Rows.
Lemma rmapM_getitem_missing (column : string) (iterator : list Row) (row : Row) :
  row ∈ iterator → Row_getitem row column = Raise ValueError →
  rmapM (λ x, Row_getitem x column) iterator = Raise ValueError.
Proof.
  intros Hin Hrow. induction iterator as [|x iterator IH]; [by apply elem_of_nil in Hin |].
  simpl. apply elem_of_cons in Hin as [<-|Hin].
  - by rewrite Hrow.
  - unfold Row_getitem at 1. destruct (dict_get x column); simpl; [| done].
    by rewrite IH.
Qed.

Lemma rmapM_getitem_cases (column : string) (iterator : list Row) :
  (∃ values, rmapM (λ x, Row_getitem x column) iterator = Ok values) ∨
  rmapM (λ x, Row_getitem x column) iterator = Raise ValueError.
Proof.
  induction iterator as [|x iterator IH]; [left; by exists [] |].
  simpl. unfold Row_getitem at 1 3. destruct (dict_get x column); simpl; [| by right].
  destruct IH as [(values & ->)| ->]; simpl; [left; by eexists | by right].
Qed.
End Rows.

Section Facts.
Context {F Model P : Type} `{Keras F Model} `{Scalar F} {laws : KerasLaws F Model}
  (api : Peer F P).
Implicit Types (self : t F) (world : World F P) (iterator : list Row).

Lemma wait_ready_Return polls self world world' :
  wait_ready api polls self world = (world', Return ()) →
  ∃ k, 1 ≤ k ≤ polls ∧ sent world' = sent world ++ replicate k IsReady.
Proof.
  revert world. induction polls as [|polls IH]; intros world; [done |].
  simpl. unfold mbind, master_is_ready, rest_get_ready, call.
  destruct (on_ready api (peer world)) as [p' [[|]|e]]; simpl.
  - intros [= <-]. exists 1. simpl. split; [lia | done].
  - intros (k & Hk & ->)%IH. exists (S k). simpl. split; [lia |].
    by rewrite <-app_assoc.
  - done.
Qed.

(** X24: what a worker puts on the wire.  When [train] returns, it returns
    the empty sequence, and it has sent one request for the center variable,
    then one submission carrying its partition index, then at least one poll
    of the ready flag and nothing else. *)
Theorem train_returns_after_ready polls self index iterator world world' self' out :
  train api polls self index iterator world = (world', Return (self', out)) →
  out = [] ∧
  ∃ data k, worker_id data = index ∧ 1 ≤ k ≤ polls ∧
    sent world' = sent world ++ [GetCenterVariable; SubmitGradient data]
                             ++ replicate k IsReady.
Proof.
  unfold train. unfold mbind at 1.
  destruct (train_gradient api self index iterator world) as [w1 [locals|e|]] eqn:Hgrad;
    [| done | done].
  destruct (train_gradient_Return _ _ _ _ _ _ _ Hgrad)
    as (_ & _ & _ & _ & _ & _ & _ & _ & _ & _ & _ & Hw1).
  unfold mbind at 1. unfold master_send_gradient, rest_post_update, call.
  destruct (on_update api (peer w1) _).2 as [tok|e]; simpl; [| done].
  unfold mbind, mret.
  match goal with |- context [wait_ready api polls ?s ?w] =>
    destruct (wait_ready api polls s w) as [w3 [[]|e|]] eqn:Hwait
  end; [| done | done].
  intros [= <- <- <-]. split; [done |].
  apply wait_ready_Return in Hwait as (k & Hk & ->). simpl.
  exists {| worker_id := index; gradient := l_gradient locals |}, k.
  split; [done |]. split; [exact Hk |]. by rewrite Hw1, <-!app_assoc.
Qed.

(** X25: a row without a column.  When the model can be deserialized and
    some row of the partition lacks the features column or the label
    column, [train] raises [ValueError] before anything is sent. *)
Theorem train_raises_on_missing_column polls self index iterator world model0 row :
  deserialize_keras_model (model self) = Ok model0 →
  row ∈ iterator →
  Row_getitem row (features_column self) = Raise ValueError ∨
  Row_getitem row (label_column self) = Raise ValueError →
  train api polls self index iterator world = (world, Throw ValueError).
Proof.
  intros Hd Hin Hmiss. unfold train. unfold mbind at 1.
  unfold train_gradient, mbind, lift. rewrite Hd.
  destruct Hmiss as [Hx|Hy].
  - by rewrite (rmapM_getitem_missing _ _ _ Hin Hx).
  - destruct (rmapM_getitem_cases (features_column self) iterator) as [(X & ->)| ->];
      [| done].
    by rewrite (rmapM_getitem_missing _ _ _ Hin Hy).
Qed.

(** X26: a fetch that fails.  When the request for the center variable
    fails, [train] raises the error of the transport; the fetch is the only
    request it has sent, so no gradient is submitted. *)
Theorem train_raises_on_failed_fetch polls self index iterator world model0 X Y e :
  deserialize_keras_model (model self) = Ok model0 →
  rmapM (λ x, Row_getitem x (features_column self)) iterator = Ok X →
  rmapM (λ x, Row_getitem x (label_column self)) iterator = Ok Y →
  (on_center_variable api (peer world)).2 = Raise e →
  train api polls self index iterator world =
  ({| peer := (on_center_variable api (peer world)).1;
      sent := sent world ++ [GetCenterVariable] |}, Throw e).
Proof.
  intros Hd HX HY Hfetch. unfold train. unfold mbind at 1.
  unfold train_gradient, mbind, lift, fetch_center_variable, mbind,
    rest_get_center_variable, call.
  by rewrite Hd, HX, HY, Hfetch.
Qed.
End Facts.

Section AgainstService.
Context {F Model : Type} `{Keras F Model} `{Scalar F} {laws : KerasLaws F Model}.
Implicit Types (self : t F) (world : World F (EASGD.t F Model)) (iterator : list Row).

Lemma train_gradient_service_peer self index iterator world :
  peer (train_gradient service_peer self index iterator world).1 = peer world.
Proof.
  unfold train_gradient, mbind, lift, fetch_center_variable, mbind,
    rest_get_center_variable, call, mret.
  destruct (deserialize_keras_model (model self)) as [model0|e]; [| done].
  destruct (rmapM _ iterator) as [X|e]; [| done].
  destruct (rmapM _ iterator) as [Y|e]; [| done].
  simpl. by destruct (asarray_sub _ _).
Qed.

Lemma wait_ready_service_ready polls self world :
  EASGD.ready (peer world) = true →
  (wait_ready service_peer (S polls) self world).2 = Return ().
Proof.
  intros Hready. simpl. unfold mbind, master_is_ready, rest_get_ready, call. simpl.
  unfold easgd_service.ready, get_ready. cbv zeta. by rewrite Hready.
Qed.

Lemma wait_ready_service_not_ready polls self world :
  EASGD.ready (peer world) = false →
  (wait_ready service_peer polls self world).2 = Diverge.
Proof.
  revert world. induction polls as [|polls IH]; intros world Hready; [done |].
  simpl. unfold mbind, master_is_ready, rest_get_ready, call. simpl.
  unfold easgd_service.ready, get_ready. cbv zeta. rewrite Hready.
  match goal with |- context [wait_ready service_peer polls self ?w] =>
    specialize (IH w Hready); destruct (wait_ready service_peer polls self w) as [w' o]
  end.
  simpl in IH. by rewrite IH.
Qed.

(** X27: the worker and the service.  A worker whose submission completes
    the set of pending gradients returns from [train] at its first poll; a
    worker whose submission does not, with no other request reaching the
    service, is still polling after any number of polls. *)
Theorem train_returns_iff_window_completes polls self index iterator world w1 locals :
  train_gradient service_peer self index iterator world = (w1, Return locals) →
  let data := {| worker_id := index; gradient := l_gradient locals |} in
  (completes (peer world) data →
   (train service_peer (S polls) self index iterator world).2
     = Return (l_self locals, [])) ∧
  (¬ completes (peer world) data →
   (train service_peer polls self index iterator world).2 = Diverge).
Proof.
  intros Hgrad data.
  pose proof (train_gradient_service_peer self index iterator world) as Hpeer.
  rewrite Hgrad in Hpeer. simpl in Hpeer.
  assert (Hrun : ∀ n,
    train service_peer n self index iterator world =
    mbind (wait_ready service_peer n (l_self locals))
      (λ _, mret (l_self locals, @nil Value))
      {| peer := (easgd_service.update (peer world) data).1;
         sent := sent w1 ++ [SubmitGradient data] |}).
  { intros n. unfold train. unfold mbind at 1. rewrite Hgrad.
    unfold mbind at 1. unfold master_send_gradient, rest_post_update, call.
    cbn -[wait_ready]. by rewrite Hpeer. }
  split; intros Hc; rewrite Hrun; unfold mbind, mret.
  - match goal with |- context [wait_ready service_peer (S polls) ?s ?w] =>
      pose proof (wait_ready_service_ready polls s w) as Hwait;
      destruct (wait_ready service_peer (S polls) s w) as [w3 o]
    end.
    simpl in Hwait. rewrite Hwait; [done |].
    by destruct (CoordinatorFacts.update_completes (peer world) data Hc) as (_ & _ & ?).
  - match goal with |- context [wait_ready service_peer polls ?s ?w] =>
      pose proof (wait_ready_service_not_ready polls s w) as Hwait;
      destruct (wait_ready service_peer polls s w) as [w3 o]
    end.
    simpl in Hwait. rewrite Hwait; [done |].
    by rewrite (CoordinatorFacts.update_open _ _ Hc).
Qed.
End AgainstService.

Section Witnesses.
Import ToyObjects.

Lemma train_returns_after_ready_witness :
  let r := train Toy.coordinator 3 Toy.worker 0 Toy.rows world1 in
  ∃ data k, worker_id data = 0%Z ∧ 1 ≤ k ≤ 3 ∧
    sent r.1 = sent world1 ++ [GetCenterVariable; SubmitGradient data]
                           ++ replicate k IsReady.
Proof.
  intros r.
  assert (Hr : ∃ self', r = (r.1, Return (self', []))).
  { eexists. vm_compute. reflexivity. }
  destruct Hr as (self' & Hr).
  destruct (train_returns_after_ready Toy.coordinator 3
              Toy.worker 0 Toy.rows world1 r.1 self' [] Hr)
    as (_ & data & k & Hrest).
  by exists data, k.
Defined.

Lemma train_raises_on_missing_column_witness :
  train Toy.coordinator 3 Toy.worker 0 (Toy.rows ++ [featureless]) Toy.world0
  = (Toy.world0, Throw ValueError).
Proof.
  apply (train_raises_on_missing_column Toy.coordinator 3 Toy.worker 0
           (Toy.rows ++ [featureless]) Toy.world0 [10%Z] featureless).
  - reflexivity.
  - right. right. left.
  - left. reflexivity.
Defined.

Lemma train_raises_on_failed_fetch_witness :
  let world := {| peer := (); sent := [] |} in
  train offline 3 Toy.worker 0 Toy.rows world
  = ({| peer := (); sent := [GetCenterVariable] |}, Throw URLError).
Proof.
  intros world.
  apply (train_raises_on_failed_fetch offline 3 Toy.worker 0 Toy.rows world
           [10%Z] [VAtom (AObj 1); VAtom (AObj 2)] [VAtom (AInt 0); VAtom (AInt 1)]
           URLError); reflexivity.
Defined.

Lemma train_returns_iff_window_completes_witness :
  (∃ self', (train service_peer 1 Toy.worker 0 Toy.rows world1).2
            = Return (self', [])) ∧
  (train service_peer 5 Toy.worker 0 Toy.rows Toy.world0).2 = Diverge.
Proof.
  split.
  - eexists.
    refine (proj1 (train_returns_iff_window_completes
                     0 Toy.worker 0 Toy.rows world1 _ _ _) _).
    + vm_compute. reflexivity.
    + vm_compute. reflexivity.
  - refine (proj2 (train_returns_iff_window_completes
                     5 Toy.worker 0 Toy.rows Toy.world0 _ _ _) _).
    + vm_compute. reflexivity.
    + vm_compute. discriminate.
Defined.
End Witnesses.
End WorkerExtras.

Module EnsembleExtras.
Import Spark Ensemble.

Section Facts.
Context {F Model History : Type} `{Keras F Model} `{KerasHistory Model History}
  `{Cluster} {claws : ClusterLaws}.
Implicit Types (self : EnsembleTrainer F) (data : DataFrame).

(** X28: merging is not there.  With [merge_models] set, [train] never
    returns: when all models have been trained it calls [merge], which
    raises [NotImplementedError]. *)
Theorem ensemble_train_cannot_merge self data :
  merge_models self = true →
  (∀ result, train self data ≠ Got result) ∧
  (∀ models,
     tmapM (EnsembleTrainerWorker_train
              {| w_model := master_model self;
                 w_features_column := features_column self;
                 w_label_column := label_column self;
                 w_label_transformer := label_transformer self |})
       (repartition data (num_models self)) = Got models →
     train self data = Raised NotImplementedError).
Proof.
  intros Hmerge. unfold train. cbv zeta. rewrite Hmerge. split.
  - intros result. by destruct (tmapM _ _).
  - by intros models ->.
Qed.

Lemma rmapM_Ok {A B} (f : A → result B) (l : list A) :
  (∀ x, x ∈ l → ∃ y, f x = Ok y) → ∃ ys, rmapM f l = Ok ys.
Proof.
  induction l as [|x l IH]; intros Hall; [by exists [] |].
  destruct (Hall x) as (y & Hy); [by left |].
  destruct IH as (ys & Hys); [intros z Hz; apply Hall; by right |].
  exists (y :: ys). simpl. by rewrite Hy, Hys.
Qed.

Lemma worker_train_Got (worker : EnsembleTrainerWorker F) (iterator : list Row) model0 :
  deserialize_keras_model (w_model worker) = Ok model0 →
  (∀ row, row ∈ iterator →
          is_Some (dict_get row (w_features_column worker)) ∧
          is_Some (dict_get row (w_label_column worker))) →
  ∃ X Y, EnsembleTrainerWorker_train worker iterator
         = Got [(fit_history (compile model0) X Y, fit (compile model0) X Y)].
Proof.
  intros Hd Hrows. unfold EnsembleTrainerWorker_train. rewrite Hd. simpl.
  destruct (rmapM_Ok (λ x, Row_getitem x (w_features_column worker)) iterator)
    as (X & ->).
  { intros row [[x Hx] _]%Hrows. exists x. unfold Row_getitem. by rewrite Hx. }
  simpl. destruct (w_label_transformer worker) as [label_transformer|].
  - destruct (rmapM_Ok (λ x, v ←r Row_getitem x (w_label_column worker);
                             Ok (label_transformer v)) iterator) as (Y & ->).
    { intros row [_ [y Hy]]%Hrows. exists (label_transformer y).
      unfold Row_getitem. by rewrite Hy. }
    simpl. by exists X, Y.
  - destruct (rmapM_Ok (λ x, Row_getitem x (w_label_column worker)) iterator)
      as (Y & ->).
    { intros row [_ [y Hy]]%Hrows. exists y. unfold Row_getitem. by rewrite Hy. }
    simpl. by exists X, Y.
Qed.

Lemma tmapM_singletons {A B} (g : A → try (list B)) (P : B → Prop) (parts : list A) :
  Forall (λ part, ∃ b, g part = Got [b] ∧ P b) parts →
  ∃ bs, tmapM g parts = Got ((λ b, [b]) <$> bs) ∧ length bs = length parts ∧ Forall P bs.
Proof.
  induction 1 as [|part parts (b & Hb & HP) _ (bs & Hbs & Hlen & HPs)].
  - by exists [].
  - exists (b :: bs). simpl. rewrite Hb, Hbs. simpl.
    split_and!; [done | by rewrite Hlen | by constructor].
Qed.

Lemma concat_singletons {B} (bs : list B) : concat ((λ b, [b]) <$> bs) = bs.
Proof. induction bs as [|b bs IH]; [done |]. rewrite fmap_cons. simpl. by f_equal. Qed.

(** X29: one model per partition.  Without merging, for a positive
    [num_models], a master model that can be deserialized and rows that all
    have the features and the label column, [train] returns [num_models]
    trained models followed by [None]; each of them was compiled and fitted
    from the master model. *)
Theorem ensemble_train_models self data model0 :
  merge_models self = false →
  (0 < num_models self)%Z →
  deserialize_keras_model (master_model self) = Ok model0 →
  (∀ row, row ∈ concat data →
          is_Some (dict_get row (features_column self)) ∧
          is_Some (dict_get row (label_column self))) →
  ∃ models,
    train self data = Got ((Some <$> models) ++ [None]) ∧
    Z.of_nat (length models) = num_models self ∧
    Forall (λ hm, ∃ X Y, hm = (fit_history (compile model0) X Y,
                               fit (compile model0) X Y)) models.
Proof.
  intros Hmerge Hn Hd Hrows. unfold train. cbv zeta. rewrite Hmerge.
  set (worker := {| w_model := master_model self;
                    w_features_column := features_column self;
                    w_label_column := label_column self;
                    w_label_transformer := label_transformer self |}).
  destruct (tmapM_singletons (EnsembleTrainerWorker_train worker)
              (λ hm, ∃ X Y, hm = (fit_history (compile model0) X Y,
                                  fit (compile model0) X Y))
              (repartition data (num_models self)))
    as (models & Hmodels & Hlen & Hall).
  { apply Forall_forall. intros part Hpart.
    destruct (worker_train_Got worker part model0 Hd) as (X & Y & Htrain).
    - intros row Hrow. apply Hrows.
      rewrite <-(repartition_rows data (num_models self) Hn).
      apply list_elem_of_In, in_concat. exists part. by rewrite <-!list_elem_of_In.
    - eexists. split; [exact Htrain |]. by exists X, Y. }
  exists models. rewrite Hmodels. simpl. rewrite concat_singletons.
  split_and!; [done | | done].
  rewrite Hlen. by apply repartition_length.
Qed.
End Facts.

Section Witnesses.
Import ToyObjects.

Lemma ensemble_train_cannot_merge_witness :
  (∀ result, train (History := nat) (ensemble true) [Toy.rows] ≠ Got result) ∧
  train (History := nat) (ensemble true) [Toy.rows] = Raised NotImplementedError.
Proof.
  destruct (ensemble_train_cannot_merge (History := nat) (ensemble true) [Toy.rows]
              eq_refl) as [Hnever Hraise].
  split; [exact Hnever |]. eapply Hraise. vm_compute. reflexivity.
Defined.

Lemma ensemble_train_models_witness :
  ∃ models,
    train (History := nat) (ensemble false) [Toy.rows]
      = Got ((Some <$> models) ++ [None]) ∧
    Z.of_nat (length models) = 2%Z.
Proof.
  destruct (ensemble_train_models (History := nat) (claws := ClusterFacts.toy_cluster_laws)
              (ensemble false) [Toy.rows] [10%Z]) as (models & Htrain & Hlen & _).
  - reflexivity.
  - simpl. lia.
  - reflexivity.
  - intros row Hrow. apply list_elem_of_In in Hrow. simpl in Hrow.
    destruct Hrow as [<-|[<-|[]]]; split; by eexists.
  - exists models. by split.
Defined.
End Witnesses.
End EnsembleExtras.

Module ThreadExtras.
Import EASGD ThreadedService LockDiscipline.

Section Code.
Context {F : Type}.
Implicit Types (code body rest : list (Instr F)) (held : bool).

Lemma instr_ok_IfComplete held body :
  instr_ok held (IfComplete body) =
  if decide (code_ok held body = Some held) then Some held else None.
Proof.
  cbn [instr_ok].
  match goal with
  | |- (if decide (?go held body = _) then _ else _) = _ =>
      assert (Hgo : ∀ c h, go h c = code_ok h c)
  end.
  { intros c. induction c as [|i c IH]; intros h; [done |].
    simpl. destruct (instr_ok h i); [apply IH | done]. }
  by rewrite Hgo.
Qed.

Lemma code_ok_app held code rest :
  code_ok held (code ++ rest) =
  match code_ok held code with
  | Some held' => code_ok held' rest
  | None => None
  end.
Proof.
  revert held. induction code as [|i code IH]; intros held; [done |].
  simpl. destruct (instr_ok held i); [apply IH | done].
Qed.

Lemma route_ok (req : Request F) : code_ok false (route req) = Some false.
Proof. destruct req; reflexivity. Qed.
End Code.

Section Facts.
Context {F Model : Type} `{Keras F Model}.
Implicit Types (m : Machine F Model) (tid : nat) (th : Thread F).

Lemma disciplined_spawn (s : EASGD.t F Model) (reqs : list (Request F)) :
  disciplined (spawn s reqs).
Proof.
  split; [| constructor].
  intros tid th Hth. unfold spawn in Hth. simpl in Hth.
  apply list_lookup_fmap_Some in Hth as (req & -> & _). apply route_ok.
Qed.

Lemma disciplined_continue m tid th (s : EASGD.t F Model) (mx : option nat)
    (c : list (Instr F)) (r : option (Response F)) (acc : list Access) :
  threads m !! tid = Some th →
  code_ok (bool_decide (mx = Some tid)) c = Some false →
  (∀ tid' th', tid' ≠ tid → threads m !! tid' = Some th' →
               code_ok (bool_decide (mx = Some tid')) (code th') = Some false) →
  Forall (λ a, protected a → locked a = true) acc →
  disciplined {| self := s; mutex := mx;
                 threads := <[tid := {| code := c; reply := r |}]> (threads m);
                 accesses := acc |}.
Proof.
  intros Hth Hc Hothers Hacc. split; [| done].
  intros tid' th'. unfold holds. simpl.
  destruct (decide (tid' = tid)) as [->|Hne].
  - rewrite list_lookup_insert_eq by by eapply lookup_lt_Some.
    by intros [= <-].
  - rewrite list_lookup_insert_ne by done. by apply Hothers.
Qed.

Lemma touch_unprotected m tid (f : Field) (k : Kind) :
  f ≠ FReady → f ≠ FModel →
  Forall (λ a, protected a → locked a = true) (accesses m) →
  Forall (λ a, protected a → locked a = true) (touch m tid f k).
Proof.
  intros Hr Hm Hacc. unfold touch. apply Forall_app. split; [done |].
  constructor; [| constructor]. by intros [?|?].
Qed.

Lemma touch_locked m tid (f : Field) (k : Kind) :
  holds m tid = true →
  Forall (λ a, protected a → locked a = true) (accesses m) →
  Forall (λ a, protected a → locked a = true) (touch m tid f k).
Proof.
  intros Hheld Hacc. unfold touch. apply Forall_app. split; [done |].
  constructor; [| constructor]. done.
Qed.

Lemma disciplined_step m tid : disciplined m → disciplined (step m tid).
Proof.
  intros Hinv. pose proof Hinv as [Hcode Hacc]. unfold step.
  destruct (threads m !! tid) as [th|] eqn:Hth; [| done].
  destruct (code th) as [|i rest] eqn:Hcodeth; [done |].
  pose proof (Hcode tid th Hth) as Hok. rewrite Hcodeth in Hok. simpl in Hok.
  destruct (instr_ok (holds m tid) i) as [held'|] eqn:Hi; [| done].
  assert (Hsame : ∀ tid' th', tid' ≠ tid → threads m !! tid' = Some th' →
            code_ok (bool_decide (mutex m = Some tid')) (code th') = Some false).
  { intros tid' th' _. apply Hcode. }
  unfold holds in *.
  destruct i; simpl in Hi; unfold exec.
  - (* Acquire *)
    destruct (bool_decide (mutex m = Some tid)) eqn:Hheld; [done |].
    injection Hi as <-. destruct (mutex m) as [owner|] eqn:Hmx; [done |].
    apply (disciplined_continue m tid th); [done | | | done].
    + by rewrite bool_decide_eq_true_2.
    + intros tid' th' Hne Hth'. rewrite bool_decide_eq_false_2 by congruence.
      specialize (Hcode tid' th' Hth'). rewrite ?Hmx in Hcode.
      by rewrite bool_decide_eq_false_2 in Hcode.
  - (* Release *)
    destruct (bool_decide (mutex m = Some tid)) eqn:Hheld; [| done].
    injection Hi as <-. apply bool_decide_eq_true_1 in Hheld.
    apply (disciplined_continue m tid th); [done | | | done].
    + by rewrite bool_decide_eq_false_2.
    + intros tid' th' Hne Hth'. rewrite bool_decide_eq_false_2 by done.
      specialize (Hcode tid' th' Hth'). rewrite ?Hheld in Hcode.
      by rewrite bool_decide_eq_false_2 in Hcode by congruence.
  - (* StoreReady *)
    destruct (bool_decide (mutex m = Some tid)) eqn:Hheld; [| done].
    injection Hi as <-.
    apply (disciplined_continue m tid th); [done | by rewrite Hheld | done |].
    by apply touch_locked.
  - (* LoadReady *)
    destruct (bool_decide (mutex m = Some tid)) eqn:Hheld; [| done].
    injection Hi as <-.
    apply (disciplined_continue m tid th); [done | by rewrite Hheld | done |].
    by apply touch_locked.
  - (* LoadWeights *)
    destruct (bool_decide (mutex m = Some tid)) eqn:Hheld; [| done].
    injection Hi as <-.
    apply (disciplined_continue m tid th); [done | by rewrite Hheld | done |].
    by apply touch_locked.
  - (* StoreGradient *)
    injection Hi as <-.
    apply (disciplined_continue m tid th); [done | done | done |].
    by apply touch_unprotected.
  - (* IfComplete *)
    change (instr_ok (bool_decide (mutex m = Some tid)) (IfComplete body) = Some held')
      in Hi.
    rewrite instr_ok_IfComplete in Hi.
    case_decide as Hbody; [| discriminate Hi].
    injection Hi as <-.
    apply (disciplined_continue m tid th); [done | | done |].
    + destruct (decide (Z.of_nat _ = _)); [| done]. by rewrite code_ok_app, Hbody.
    + by apply touch_unprotected.
  - (* ProcessGradients *)
    injection Hi as <-.
    apply (disciplined_continue m tid th); [done | done | done |].
    by apply touch_unprotected.
  - (* ClearGradients *)
    injection Hi as <-.
    apply (disciplined_continue m tid th); [done | done | done |].
    by apply touch_unprotected.
  - (* IncrIteration *)
    injection Hi as <-.
    apply (disciplined_continue m tid th); [done | done | done |].
    apply Forall_app. split; [by apply touch_unprotected |].
    constructor; [| constructor]. by intros [?|?].
  - (* ReturnOK *)
    injection Hi as <-.
    by apply (disciplined_continue m tid th).
Qed.

(** X30: what the mutex does protect.  Whatever requests are being served
    and however their threads are scheduled, every read and every write of
    the ready flag and every read of the model is made by a thread that
    holds the mutex. *)
Theorem ready_and_model_accesses_locked (s : EASGD.t F Model)
    (reqs : list (Request F)) (schedule : list nat) :
  Forall (λ a, field a = FReady ∨ field a = FModel → locked a = true)
    (accesses (run_schedule (spawn s reqs) schedule)).
Proof.
  assert (Hrun : ∀ sched m, disciplined m → disciplined (run_schedule m sched)).
  { intros sched. induction sched as [|tid sched IH]; intros m Hm; [done |].
    simpl. apply IH. by apply disciplined_step. }
  apply (Hrun schedule (spawn s reqs)), disciplined_spawn.
Qed.
End Facts.
End ThreadExtras.
